(** * The REST gateway's route handlers ([sawtooth_rest_api/route_handlers.py])

    A shallow embedding of [RouteHandler]: Python values are JSON-like
    terms, dicts are insertion-ordered association lists, exceptions are an
    explicit [result] type, and what a call does to the outside (a message
    sent to the validator, a trap consulted, a header decoded) is recorded,
    in order, by a small writer-and-error monad. *)

From Stdlib Require Import ZArith List String Ascii Bool Lia.
From Stdlib Require Import Sorting.Sorted Sorting.Permutation.
From Stdlib Require Import Structures.OrderedTypeEx.
From Stdlib Require Import Numbers.DecimalString.
From Stdlib Require Import Floats.SpecFloat.
Import ListNotations.

Set Warnings "-register-all".

Local Open Scope string_scope.
Local Open Scope list_scope.
Local Open Scope Z_scope.

Notation "a +++ b" := (String.append a b) (at level 60, right associativity).

(** ** Python text *)

(** Text is a sequence of code points below 256. *)
Definition code (c : ascii) : Z := Z.of_N (N_of_ascii c).
Definition chr (z : Z) : ascii := ascii_of_N (Z.to_N z).

Definition in_range (lo hi : Z) (c : ascii) : bool :=
  (lo <=? code c) && (code c <=? hi).

(** [str.lower] on one code point: A-Z, and the Latin-1 capitals. *)
Definition lower_char (c : ascii) : ascii :=
  if in_range 65 90 c then chr (code c + 32)
  else if in_range 192 222 c && negb (code c =? 215) then chr (code c + 32)
  else c.

Fixpoint lower (s : string) : string :=
  match s with
  | EmptyString => EmptyString
  | String c s' => String (lower_char c) (lower s')
  end.

(** [s.split(sep)] for a one-character separator: never the empty list. *)
Fixpoint split (sep : ascii) (s : string) : list string :=
  match s with
  | EmptyString => [EmptyString]
  | String c s' =>
      if (c =? sep)%char then EmptyString :: split sep s'
      else match split sep s' with
           | [] => [String c EmptyString]
           | w :: ws => String c w :: ws
           end
  end.

(** [sep.join(parts)] *)
Definition join (sep : string) (parts : list string) : string :=
  String.concat sep parts.

(** [s.replace(old, new)] for a non-empty [old]: matches are found left to
    right and do not overlap.  [skip] counts the characters of a match that
    are still to be passed over. *)
Fixpoint replace_from (old new : string) (skip : nat) (s : string) : string :=
  match s with
  | EmptyString => EmptyString
  | String c s' =>
      match skip with
      | S k => replace_from old new k s'
      | O =>
          if String.prefix old s
          then new +++ replace_from old new (Nat.pred (String.length old)) s'
          else String c (replace_from old new O s')
      end
  end.

(** With an empty [old], Python puts [new] before every character and at
    the end. *)
Fixpoint intersperse_all (new s : string) : string :=
  match s with
  | EmptyString => new
  | String c s' => new +++ String c (intersperse_all new s')
  end.

Definition replace (old new s : string) : string :=
  match old with
  | EmptyString => intersperse_all new s
  | _ => replace_from old new O s
  end.

(** *** [int(text)] *)

(** The blanks that [int] strips from both ends of text of code points
    below 256: tab to carriage return and the space, and the two blanks of
    Latin-1, next line and no-break space.  The separators 28 to 31 are
    blank for [str.strip] but not for [int]. *)
Definition is_space (c : ascii) : bool :=
  in_range 9 13 c || (code c =? 32) || (code c =? 133) || (code c =? 160).

Definition is_digit (c : ascii) : bool := in_range 48 57 c.

Fixpoint lstrip (s : string) : string :=
  match s with
  | String c s' => if is_space c then lstrip s' else s
  | EmptyString => EmptyString
  end.

Fixpoint rstrip (s : string) : string :=
  match s with
  | EmptyString => EmptyString
  | String c s' =>
      match rstrip s' with
      | EmptyString => if is_space c then EmptyString else String c EmptyString
      | r => String c r
      end
  end.

Definition strip (s : string) : string := rstrip (lstrip s).

(** Decimal digits, a single underscore allowed between two digits.
    [after_digit] tells whether the previous character was a digit. *)
Fixpoint digits (acc : Z) (after_digit : bool) (s : string) : option Z :=
  match s with
  | EmptyString => if after_digit then Some acc else None
  | String c s' =>
      if is_digit c then digits (10 * acc + (code c - 48)) true s'
      else if (code c =? 95) && after_digit then
        match s' with
        | String d _ => if is_digit d then digits acc false s' else None
        | EmptyString => None
        end
      else None
  end.

(** [sys.int_info.default_max_str_digits]: text of more digits, leading
    zeros counted and underscores not, is refused with [ValueError]. *)
Definition int_max_str_digits : nat := 4300.

Fixpoint count_digits (s : string) : nat :=
  match s with
  | EmptyString => O
  | String c s' => if is_digit c then S (count_digits s') else count_digits s'
  end.

Definition limited_digits (r : string) : option Z :=
  if Nat.leb (count_digits r) int_max_str_digits then digits 0 false r else None.

(** [int(s)]: [None] stands for [ValueError]. *)
Definition int (s : string) : option Z :=
  match strip s with
  | String "+" r => limited_digits r
  | String "-" r => option_map Z.opp (limited_digits r)
  | r => limited_digits r
  end.

(** *** [int(t * 0.95)] *)

(** Python's [float] is the IEEE 754 double: 53 bits of mantissa, and
    exponents up to 1024. *)
Definition float : Type := spec_float.

(** The literal [0.95]: the double nearest to it, 0x1.e666666666666p-1. *)
Definition float_095 : float := S754_finite false 8556839292003942 (-53).

(** [float(t)] as [t * 0.95] computes it for an integer [t]: rounded to
    the nearest double, ties to even; [None] stands for [OverflowError],
    raised when no finite double is near enough. *)
Definition float_of_int (t : Z) : option float :=
  match binary_normalize 53 1024 t 0 false with
  | S754_infinity _ | S754_nan => None
  | x => Some x
  end.

(** [int(x)] of a double: rounded towards zero; infinities and NaN have
    no integer. *)
Definition int_of_float (x : float) : option Z :=
  match x with
  | S754_zero _ => Some 0
  | S754_finite s m e => Some (cond_Zopp s (Z.shiftl (Z.pos m) e))
  | S754_infinity _ | S754_nan => None
  end.

(** [int(t * 0.95)] for an integer [t]; [None] stands for
    [OverflowError]. *)
Definition int_095 (t : Z) : option Z :=
  match float_of_int t with
  | Some x => int_of_float (SFmul 53 1024 x float_095)
  | None => None
  end.

(** ** Python values *)

Definition bytes := list Byte.byte.

(** What [MessageToDict] and [json.loads] produce. *)
Inductive json : Type :=
| JNone
| JBool (b : bool)
| JInt (z : Z)
| JStr (s : string)
| JList (l : list json)
| JDict (d : list (string * json)).

(** A dict keeps its keys in insertion order. *)
Definition dict := list (string * json).

Fixpoint dict_get {V} (k : string) (d : list (string * V)) : option V :=
  match d with
  | [] => None
  | (k', v) :: d' => if (k' =? k)%string then Some v else dict_get k d'
  end.

(** [d[k] = v]: an existing key keeps its place, a new one goes last. *)
Fixpoint dict_set {V} (k : string) (v : V) (d : list (string * V)) : list (string * V) :=
  match d with
  | [] => [(k, v)]
  | (k', v') :: d' =>
      if (k' =? k)%string then (k, v) :: d' else (k', v') :: dict_set k v d'
  end.

Definition dict_has {V} (k : string) (d : list (string * V)) : bool :=
  match dict_get k d with Some _ => true | None => false end.

Definition keys {V} (d : list (string * V)) : list string := map fst d.

(** Truth value of [v] in [if v], [not v], [v or w]. *)
Definition truthy (v : json) : bool :=
  match v with
  | JNone => false
  | JBool b => b
  | JInt z => negb (z =? 0)
  | JStr s => negb (s =? "")%string
  | JList l => match l with [] => false | _ => true end
  | JDict d => match d with [] => false | _ => true end
  end.

Definition decimal (z : Z) : string := NilZero.string_of_int (Z.to_int z).

(** ** [json.dumps(obj, indent=2, separators=(',', ': '), sort_keys=True)] *)

Definition dquote : ascii := "034"%char.
Definition newline : ascii := "010"%char.

Definition hex_digit (n : Z) : ascii :=
  if n <? 10 then chr (48 + n) else chr (87 + n).

(** [ensure_ascii] is on: everything outside space..tilde is escaped. *)
Definition escape_char (c : ascii) : string :=
  let n := code c in
  if n =? 34 then String "\" (String dquote "")
  else if n =? 92 then "\\"
  else if n =? 10 then "\n"
  else if n =? 13 then "\r"
  else if n =? 9 then "\t"
  else if n =? 12 then "\f"
  else if n =? 8 then "\b"
  else if in_range 32 126 c then String c ""
  else "\u00" +++ String (hex_digit (n / 16)) (String (hex_digit (n mod 16)) "").

Fixpoint escape (s : string) : string :=
  match s with
  | EmptyString => EmptyString
  | String c s' => escape_char c +++ escape s'
  end.

Definition encode_string (s : string) : string :=
  String dquote (escape s +++ String dquote "").

Fixpoint spaces (n : nat) : string :=
  match n with O => "" | S n' => String " " (spaces n') end.

Definition newline_indent (level : nat) : string :=
  String newline (spaces (2 * level)).

(** [sorted(dct.items())]: the keys of a dict are distinct, so the order
    is the order of the keys. *)
Fixpoint insert_item {V} (kv : string * V) (l : list (string * V)) : list (string * V) :=
  match l with
  | [] => [kv]
  | kv' :: l' =>
      if String.leb (fst kv) (fst kv') then kv :: l else kv' :: insert_item kv l'
  end.

Definition sort_items {V} (l : list (string * V)) : list (string * V) :=
  fold_right insert_item [] l.

Definition member (kv : string * string) : string :=
  encode_string (fst kv) +++ ": " +++ snd kv.

Definition block_text (opening closing : string) (level : nat) (parts : list string) : string :=
  opening +++ newline_indent (S level)
    +++ join ("," +++ newline_indent (S level)) parts
    +++ newline_indent level +++ closing.

(** The values of a dict are encoded one level deeper than the dict,
    whatever their order; the members are then laid out by sorted key. *)
Fixpoint encode (level : nat) (v : json) : string :=
  match v with
  | JNone => "null"
  | JBool true => "true"
  | JBool false => "false"
  | JInt z => decimal z
  | JStr s => encode_string s
  | JList l =>
      match l with
      | [] => "[]"
      | _ => block_text "[" "]" level (map (encode (S level)) l)
      end
  | JDict d =>
      match d with
      | [] => "{}"
      | _ =>
          block_text "{" "}" level
            (map member
               (sort_items (map (fun kv => (fst kv, encode (S level) (snd kv))) d)))
      end
  end.

Definition json_dumps (v : json) : string := encode 0 v.

(** [str(v)], as [str.format] applies it.  [repr] is Python's rendering of
    a list or a dict. *)
Definition py_str (repr : json -> string) (v : json) : string :=
  match v with
  | JStr s => s
  | JInt z => decimal z
  | JBool true => "True"
  | JBool false => "False"
  | JNone => "None"
  | _ => repr v
  end.

(** [a or b] *)
Definition py_or (a b : json) : json := if truthy a then a else b.

(** ** Exceptions and effects *)

(** [sawtooth_rest_api.exceptions]: the errors a handler returns or
    raises, and the errors raised by the traps. *)
Inductive api_error : Type :=
| WrongBodyType | EmptyProtobuf | BadProtobuf | BadStatusBody | MissingStatusId
| ValidatorUnavailable
| UnknownError | NotReadyError | MissingHeadError
| InvalidBatchError | StatusesNotReturnedError.

Inductive exn : Type :=
| KeyError (key : string)
| TypeError
| ValueError
| OverflowError
| AttributeError
| DecodeError
| Base64Error
| JSONDecodeError
| HTTPError (e : api_error).

Inductive result (A : Type) : Type :=
| Ok (a : A)
| Raise (e : exn).
Arguments Ok {A} a.
Arguments Raise {A} e.

(** Modelled from the spec: the traps of [error_handlers], a module that
    is not among the sources.  A trap is "a predicate over a status code
    plus the error it produces", and [check] "raises its associated error"
    when the code matches. *)
Record ErrorTrap : Type := { trigger : Z; error : api_error }.

Definition Unknown (code : Z) : ErrorTrap := {| trigger := code; error := UnknownError |}.
Definition NotReady (code : Z) : ErrorTrap := {| trigger := code; error := NotReadyError |}.
Definition MissingHead (code : Z) : ErrorTrap := {| trigger := code; error := MissingHeadError |}.

Inductive header_proto : Type := BlockHeader | BatchHeader | TransactionHeader.

(** What a call does to the outside, in the order it does it. *)
Inductive event : Type :=
| Sent (message_type : Z) (content : bytes)
| Checked (t : ErrorTrap) (status : Z)
| Decoded (p : header_proto) (header : json).

(** A computation ends in a value or an exception, and leaves the events
    it caused up to that point. *)
Definition M (A : Type) : Type := (result A * list event)%type.

Definition ret {A} (a : A) : M A := (Ok a, []).
Definition raise {A} (e : exn) : M A := (Raise e, []).
Definition emit (ev : event) : M unit := (Ok tt, [ev]).

Definition bind {A B} (c : M A) (k : A -> M B) : M B :=
  match c with
  | (Ok a, t) => let (r, t') := k a in (r, t ++ t')
  | (Raise e, t) => (Raise e, t)
  end.

Notation "x <- c ;; k" := (bind c (fun x => k))
  (at level 61, c at next level, right associativity).
Notation "c ;;; k" := (bind c (fun _ => k))
  (at level 61, right associativity).

Definition lift {A} (e : exn) (o : option A) : M A :=
  match o with Some a => ret a | None => raise e end.

Fixpoint mapM {A B} (f : A -> M B) (l : list A) : M (list B) :=
  match l with
  | [] => ret []
  | x :: l' => y <- f x ;; ys <- mapM f l' ;; ret (y :: ys)
  end.

Definition value {A} (c : M A) : result A := fst c.
Definition trace {A} (c : M A) : list event := snd c.

(** [check(status)] *)
Definition check (t : ErrorTrap) (status : Z) : M unit :=
  emit (Checked t status) ;;;
  if status =? trigger t then raise (HTTPError (error t)) else ret tt.

(** [obj[key]] *)
Definition getitem (key : string) (obj : json) : M json :=
  match obj with
  | JDict d => lift (KeyError key) (dict_get key d)
  | _ => raise TypeError
  end.

(** [obj[key] = v] *)
Definition setitem (key : string) (v : json) (obj : json) : M json :=
  match obj with
  | JDict d => ret (JDict (dict_set key v d))
  | _ => raise TypeError
  end.

(** [key in obj]; the handlers ask it of records that were just indexed
    by a key, so of dicts. *)
Definition contains (key : string) (obj : json) : M bool :=
  match obj with
  | JDict d => ret (dict_has key d)
  | _ => raise TypeError
  end.

Fixpoint chars (s : string) : list json :=
  match s with
  | EmptyString => []
  | String c s' => JStr (String c "") :: chars s'
  end.

(** [for x in v]: a dict yields its keys, text its characters. *)
Definition iterate (v : json) : M (list json) :=
  match v with
  | JList l => ret l
  | JDict d => ret (map JStr (keys d))
  | JStr s => ret (chars s)
  | _ => raise TypeError
  end.

(** ** aiohttp *)

(** The request, as the handlers read it: [headers] is a multidict whose
    keys compare without case, [query] is [request.url.query], a multidict
    in the order of the URL, [url] is [str(request.url)] and [body] is what
    [await request.read()] returns. *)
Record Request : Type := {
  method : string;
  scheme : string;
  host : string;
  path : string;
  headers : list (string * string);
  query : list (string * string);
  url : string;
  body : bytes
}.

(** [request.headers[name]]: header names compare without case. *)
Fixpoint header_get (name : string) (hs : list (string * string)) : option string :=
  match hs with
  | [] => None
  | (k, v) :: hs' =>
      if (lower k =? lower name)%string then Some v else header_get name hs'
  end.

(** [web.Response(status=..., content_type=..., text=...)] *)
Module web.
Record Response : Type := { status : Z; content_type : string; text : string }.
End web.

(** A handler hands back a response, or one of the error responses. *)
Inductive returned : Type :=
| Response (r : web.Response)
| ErrorResponse (e : api_error).

(** ** The validator connection ([sawtooth_sdk]) *)

(** What [future.result(timeout)] hands back: a result whose [content] is
    the reply, or an error result whose [content] raises
    [ValidatorConnectionError]. *)
Inductive reply : Type :=
| FutureResult (content : bytes)
| FutureError.

(** [future.result(timeout)]; [TimedOut] stands for [FutureTimeoutError]. *)
Inductive outcome : Type :=
| TimedOut
| Arrived (r : reply).

Definition Future : Type := Z -> outcome.

Record Stream : Type := { send : Z -> bytes -> Future }.

Record RouteHandler : Type := { _stream : Stream; _timeout : Z }.

Definition DEFAULT_TIMEOUT : Z := 300.

(** ** Protobuf *)

(** A message class: [ParseFromString] ([None] stands for [DecodeError])
    and [MessageToDict(message, including_default_value_fields=True,
    preserving_proto_field_name=True)]. *)
Record Proto (T : Type) : Type := {
  ParseFromString : bytes -> option T;
  MessageToDict : T -> dict
}.
Arguments ParseFromString {T}.
Arguments MessageToDict {T}.

(** A reply class also has a status field and a status enumeration, on
    which a name that the enumeration lacks raises [AttributeError]. *)
Record ReplyProto (T : Type) : Type := {
  proto :> Proto T;
  status : T -> Z;
  INTERNAL_ERROR : option Z;
  NOT_READY : option Z;
  NO_ROOT : option Z
}.
Arguments proto {T}.
Arguments status {T}.
Arguments INTERNAL_ERROR {T}.
Arguments NOT_READY {T}.
Arguments NO_ROOT {T}.

(** A query sent to the validator.  Assigning to the integer field
    [timeout] raises [ValueError] for a value outside the field's range;
    [client_pb2], which declares the field, is not among the sources, so
    the range is left open. *)
Class ValidatorQuery (Q : Type) : Type := {
  SerializeToString : Q -> bytes;
  wait_for_commit : Q -> bool;
  timeout : Q -> Z;
  timeout_accepts : Z -> bool;
  set_wait_for_commit : bool -> Q -> Q;
  set_timeout : Z -> Q -> option Q;
  wait_for_commit_set :
    forall b q, wait_for_commit (set_wait_for_commit b q) = b;
  timeout_kept :
    forall b q, timeout (set_wait_for_commit b q) = timeout q;
  set_timeout_spec :
    forall z q,
      if timeout_accepts z
      then exists q', set_timeout z q = Some q' /\ timeout q' = z
                      /\ wait_for_commit q' = wait_for_commit q
      else set_timeout z q = None
}.

(** Modelled from the spec: the records of [batch_pb2], also not among the
    sources: "an opaque binary header field plus nested lists of child
    records", each with the signature of its header. *)
Record Transaction : Type := {
  transaction_header : bytes;
  transaction_signature : string;
  payload : bytes
}.

Record Batch : Type := {
  header : bytes;
  header_signature : string;
  transactions : list Transaction
}.

Record ClientBatchSubmitRequest : Type := {
  batches : list Batch;
  submit_wait_for_commit : bool;
  submit_timeout : Z
}.

Record ClientBatchStatusRequest : Type := {
  batch_ids : list string;
  status_wait_for_commit : bool;
  status_timeout : Z
}.

(** The replies to them: a status, and a protobuf map from batch id to the
    name of its status, which on the wire is absent when it is empty. *)
Record ClientBatchSubmitResponse : Type := {
  submit_status : Z;
  submit_batch_statuses : list (string * string)
}.

Record ClientBatchStatusResponse : Type := {
  statuses_status : Z;
  statuses_batch_statuses : list (string * string)
}.

Definition statuses_dict (m : list (string * string)) : json :=
  JDict (map (fun kv => (fst kv, JStr (snd kv))) m).

(** ** What the module imports *)

Class Environment : Type := {
  (** builtins *)
  repr : json -> string;
  json_loads : bytes -> option json;
  b64decode : string -> option bytes;
  (** [validator_pb2.Message] *)
  CLIENT_BATCH_SUBMIT_REQUEST : Z;
  CLIENT_BATCH_STATUS_REQUEST : Z;
  (** [block_pb2], [batch_pb2], [transaction_pb2] *)
  Header : Type;
  header_class : header_proto -> Proto Header;
  BatchList_ParseFromString : bytes -> option (list Batch);
  (** [client_pb2] *)
  submit_request_bytes : ClientBatchSubmitRequest -> bytes;
  status_request_bytes : ClientBatchStatusRequest -> bytes;
  timeout_range : Z -> bool;
  submit_response_parse : bytes -> option ClientBatchSubmitResponse;
  submit_status_name : Z -> string;
  submit_INTERNAL_ERROR : option Z;
  submit_NOT_READY : option Z;
  submit_NO_ROOT : option Z;
  INVALID_BATCH : Z;
  statuses_response_parse : bytes -> option ClientBatchStatusResponse;
  statuses_status_name : Z -> string;
  statuses_INTERNAL_ERROR : option Z;
  statuses_NOT_READY : option Z;
  statuses_NO_ROOT : option Z;
  NO_RESOURCE : Z
}.

(** Assigning [z] to an integer field of range [accepts]. *)
Definition assign_int {Q} (accepts : Z -> bool) (update : Z -> Q -> Q) (z : Z) (q : Q) : option Q :=
  if accepts z then Some (update z q) else None.

Definition submit_with_wait (b : bool) (q : ClientBatchSubmitRequest) : ClientBatchSubmitRequest :=
  {| batches := batches q; submit_wait_for_commit := b; submit_timeout := submit_timeout q |}.

Definition submit_with_timeout (z : Z) (q : ClientBatchSubmitRequest) : ClientBatchSubmitRequest :=
  {| batches := batches q; submit_wait_for_commit := submit_wait_for_commit q; submit_timeout := z |}.

Definition status_with_wait (b : bool) (q : ClientBatchStatusRequest) : ClientBatchStatusRequest :=
  {| batch_ids := batch_ids q; status_wait_for_commit := b; status_timeout := status_timeout q |}.

Definition status_with_timeout (z : Z) (q : ClientBatchStatusRequest) : ClientBatchStatusRequest :=
  {| batch_ids := batch_ids q; status_wait_for_commit := status_wait_for_commit q; status_timeout := z |}.

#[export, refine] Instance submit_query `{Environment} : ValidatorQuery ClientBatchSubmitRequest := {|
  SerializeToString := submit_request_bytes;
  wait_for_commit := submit_wait_for_commit;
  timeout := submit_timeout;
  timeout_accepts := timeout_range;
  set_wait_for_commit := submit_with_wait;
  set_timeout := assign_int timeout_range submit_with_timeout
|}.
Proof.
  - reflexivity.
  - reflexivity.
  - intros z q. unfold assign_int. destruct (timeout_range z); eauto.
Defined.

#[export, refine] Instance status_query `{Environment} : ValidatorQuery ClientBatchStatusRequest := {|
  SerializeToString := status_request_bytes;
  wait_for_commit := status_wait_for_commit;
  timeout := status_timeout;
  timeout_accepts := timeout_range;
  set_wait_for_commit := status_with_wait;
  set_timeout := assign_int timeout_range status_with_timeout
|}.
Proof.
  - reflexivity.
  - reflexivity.
  - intros z q. unfold assign_int. destruct (timeout_range z); eauto.
Defined.

(** ** [RouteHandler] *)

Section Handlers.

Context `{Environment}.

(** [MessageToDict] of the two replies: with
    [including_default_value_fields] every field has its key. *)
Definition ClientBatchSubmitResponse_proto : ReplyProto ClientBatchSubmitResponse := {|
  proto := {|
    ParseFromString := submit_response_parse;
    MessageToDict := fun m =>
      [("status", JStr (submit_status_name (submit_status m)));
       ("batch_statuses", statuses_dict (submit_batch_statuses m))]
  |};
  status := submit_status;
  INTERNAL_ERROR := submit_INTERNAL_ERROR;
  NOT_READY := submit_NOT_READY;
  NO_ROOT := submit_NO_ROOT
|}.

Definition ClientBatchStatusResponse_proto : ReplyProto ClientBatchStatusResponse := {|
  proto := {|
    ParseFromString := statuses_response_parse;
    MessageToDict := fun m =>
      [("status", JStr (statuses_status_name (statuses_status m)));
       ("batch_statuses", statuses_dict (statuses_batch_statuses m))]
  |};
  status := statuses_status;
  INTERNAL_ERROR := statuses_INTERNAL_ERROR;
  NOT_READY := statuses_NOT_READY;
  NO_ROOT := statuses_NO_ROOT
|}.

(** Modelled from the spec: the endpoint traps [InvalidBatch()] and
    [StatusesNotReturned()] of [error_handlers], which fix their own
    status codes. *)
Definition InvalidBatch : ErrorTrap :=
  {| trigger := INVALID_BATCH; error := InvalidBatchError |}.
Definition StatusesNotReturned : ErrorTrap :=
  {| trigger := NO_RESOURCE; error := StatusesNotReturnedError |}.

(** [message_to_dict]: [MessageToDict] with the settings of the module. *)
Definition message_to_dict {T} (p : Proto T) (message : T) : dict :=
  MessageToDict p message.

(** [_try_validator_request]: the content is serialized when it is a
    message, sent once, and awaited for [_timeout]. *)
Definition _try_validator_request {Q} `{ValidatorQuery Q}
    (self : RouteHandler) (message_type : Z) (content : Q + bytes) : M bytes :=
  let content :=
    match content with
    | inl message => SerializeToString message
    | inr raw => raw
    end in
  emit (Sent message_type content) ;;;
  let future := send (_stream self) message_type content in
  match future (_timeout self) with
  | TimedOut => raise (HTTPError ValidatorUnavailable)
  | Arrived response =>
      match response with
      | FutureResult c => ret c
      | FutureError => raise (HTTPError ValidatorUnavailable)
      end
  end.

(** [traps.append(cls(code))] inside [try ... except AttributeError: pass] *)
Definition append_if_defined (cls : Z -> ErrorTrap) (code : option Z)
    (traps : list ErrorTrap) : list ErrorTrap :=
  match code with
  | Some c => traps ++ [cls c]
  | None => traps
  end.

(** [for x in l: f(x)] *)
Fixpoint for_each {A} (f : A -> M unit) (l : list A) : M unit :=
  match l with
  | [] => ret tt
  | x :: l' => f x ;;; for_each f l'
  end.

(** [_try_response_parse]; [traps or []], the three guarded appends, and
    the loop over the traps. *)
Definition _try_response_parse {T} (proto : ReplyProto T) (response : bytes)
    (traps : option (list ErrorTrap)) : M dict :=
  parsed <- lift DecodeError (ParseFromString proto response) ;;
  let traps := match traps with Some (t :: ts) => t :: ts | _ => [] end in
  let traps := append_if_defined Unknown (INTERNAL_ERROR proto) traps in
  let traps := append_if_defined NotReady (NOT_READY proto) traps in
  let traps := append_if_defined MissingHead (NO_ROOT proto) traps in
  for_each (fun trap => check trap (status proto parsed)) traps ;;;
  ret (message_to_dict proto parsed).

(** [_query_validator] *)
Definition _query_validator {Q T} `{ValidatorQuery Q}
    (self : RouteHandler) (req_type : Z) (resp_proto : ReplyProto T)
    (content : Q + bytes) (traps : option (list ErrorTrap)) : M dict :=
  response <- _try_validator_request self req_type content ;;
  _try_response_parse resp_proto response traps.

(** The dict that [_wrap_response] serializes. *)
Definition envelope_of (data : json) (metadata : option dict) : dict :=
  let envelope := match metadata with Some (kv :: d) => kv :: d | _ => [] end in
  match data with
  | JNone => envelope
  | _ => dict_set "data" data envelope
  end.

(** [_wrap_response]; [metadata] is a dict or [None]. *)
Definition _wrap_response (data : json) (metadata : option dict) (status : Z)
    : web.Response :=
  {| web.status := status;
     web.content_type := "application/json";
     web.text := json_dumps (JDict (envelope_of data metadata)) |}.

(** ['{}={}'.format(k, v)] *)
Definition query_item (kv : string * string) : string :=
  fst kv +++ "=" +++ snd kv.

(** [_get_metadata] *)
Definition _get_metadata (request : Request) (response : dict) : dict :=
  let head := match dict_get "head_id" response with Some h => h | None => JNone end in
  if negb (truthy head) then [("link", JStr (url request))]
  else
    let link :=
      scheme request +++ "://" +++ host request +++ path request
        +++ "?head=" +++ py_str repr head in
    let queries := query request in
    let headless :=
      map query_item (filter (fun kv => negb (fst kv =? "head")%string) queries) in
    let link :=
      match headless with
      | [] => link
      | _ => link +++ "&" +++ join "&" headless
      end in
    [("head", head); ("link", JStr link)].

(** [_parse_header]: the record is updated in place and returned. *)
Definition _parse_header (p : header_proto) (obj : json) : M json :=
  text <- getitem "header" obj ;;
  emit (Decoded p text) ;;;
  header_bytes <-
    match text with
    | JStr s => lift Base64Error (b64decode s)
    | _ => raise TypeError
    end ;;
  header <- lift DecodeError (ParseFromString (header_class p) header_bytes) ;;
  setitem "header" (JDict (message_to_dict (header_class p) header)) obj.

(** [_expand_transaction], [_expand_batch], [_expand_block] *)
Definition _expand_transaction (transaction : json) : M json :=
  _parse_header TransactionHeader transaction.

Definition _expand_batch (batch : json) : M json :=
  batch <- _parse_header BatchHeader batch ;;
  present <- contains "transactions" batch ;;
  if present : bool then
    children <- getitem "transactions" batch ;;
    ts <- iterate children ;;
    expanded <- mapM _expand_transaction ts ;;
    setitem "transactions" (JList expanded) batch
  else ret batch.

Definition _expand_block (block : json) : M json :=
  block <- _parse_header BlockHeader block ;;
  present <- contains "batches" block ;;
  if present : bool then
    children <- getitem "batches" block ;;
    bs <- iterate children ;;
    expanded <- mapM _expand_batch bs ;;
    setitem "batches" (JList expanded) block
  else ret block.

(** [_set_wait]: both [int(wait)] and the assignment to [timeout] are
    inside the [try]; the assignment of the default is not, and neither is
    the product [self._timeout * 0.95], which raises [OverflowError] for a
    timeout that no double is near. *)
Definition _set_wait {Q} `{ValidatorQuery Q}
    (self : RouteHandler) (request : Request) (validator_query : Q) : M Q :=
  let wait :=
    match dict_get "wait" (query request) with Some w => w | None => "false" end in
  if negb (lower wait =? "false")%string then
    let validator_query := set_wait_for_commit true validator_query in
    let attempt :=
      match int wait with
      | Some n => set_timeout n validator_query
      | None => None
      end in
    match attempt with
    | Some q => ret q
    | None =>
        (* By default, waits for 95% of REST API's configured timeout *)
        default <- lift OverflowError (int_095 (_timeout self)) ;;
        lift ValueError (set_timeout default validator_query)
    end
  else ret validator_query.

(** [filter_ids and filter_ids.split(',')] *)
Definition _get_filter_ids (request : Request) : json :=
  match dict_get "id" (query request) with
  | None => JNone
  | Some filter_ids =>
      if (filter_ids =? "")%string then JStr filter_ids
      else JList (map JStr (split "," filter_ids))
  end.

(** [v == expected], for text [expected]. *)
Definition is_text (expected : string) (v : json) : bool :=
  match v with
  | JStr s => (s =? expected)%string
  | _ => false
  end.

(** [data.items()] *)
Definition items (data : json) : M (list (string * json)) :=
  match data with
  | JDict d => ret d
  | _ => raise AttributeError
  end.

(** [submit_batches] *)
Definition submit_batches (self : RouteHandler) (request : Request) : M returned :=
  (* Parse request *)
  content_type <- lift (KeyError "Content-Type")
                    (header_get "Content-Type" (headers request)) ;;
  if negb (content_type =? "application/octet-stream")%string
  then ret (ErrorResponse WrongBodyType)
  else
    let payload := body request in
    match payload with
    | [] => ret (ErrorResponse EmptyProtobuf)
    | _ =>
        match BatchList_ParseFromString payload with
        | None => ret (ErrorResponse BadProtobuf)
        | Some batch_list =>
            (* Query validator *)
            let error_traps := [InvalidBatch] in
            validator_query <-
              _set_wait self request
                {| batches := batch_list;
                   submit_wait_for_commit := false;
                   submit_timeout := 0 |} ;;
            response <-
              _query_validator self CLIENT_BATCH_SUBMIT_REQUEST
                ClientBatchSubmitResponse_proto (inl validator_query)
                (Some error_traps) ;;
            (* Build response envelope *)
            statuses <- getitem "batch_statuses" (JDict response) ;;
            let data := py_or statuses JNone in
            let link :=
              scheme request +++ "://" +++ host request +++ "/batch_status?id="
                +++ join "," (map header_signature batch_list) in
            match data with
            | JNone =>
                ret (Response (_wrap_response data (Some [("link", JStr link)]) 202))
            | _ =>
                entries <- items data ;;
                if existsb (fun kv => negb (is_text "COMMITTED" (snd kv))) entries
                then ret (Response (_wrap_response data (Some [("link", JStr link)]) 200))
                else
                  let link := replace "batch_status" "batches" link in
                  ret (Response (_wrap_response JNone (Some [("link", JStr link)]) 201))
            end
        end
    end.

(** [ClientBatchStatusRequest(batch_ids=ids)]: a repeated string field
    takes text only. *)
Definition as_text (v : json) : M string :=
  match v with
  | JStr s => ret s
  | _ => raise TypeError
  end.

Definition new_ClientBatchStatusRequest (ids : json) : M ClientBatchStatusRequest :=
  elements <- iterate ids ;;
  texts <- mapM as_text elements ;;
  ret {| batch_ids := texts; status_wait_for_commit := false; status_timeout := 0 |}.

(** The first part of [list_statuses]: the batch ids of the request, or
    the error response that ends the call. *)
Definition parse_batch_ids (request : Request) : M (api_error + json) :=
  if (method request =? "POST")%string then
    content_type <- lift (KeyError "Content-Type")
                      (header_get "Content-Type" (headers request)) ;;
    if negb (content_type =? "application/json")%string
    then ret (inl BadStatusBody)
    else
      ids <- lift JSONDecodeError (json_loads (body request)) ;;
      match ids with
      | JList l =>
          match l with
          | [] => ret (inl MissingStatusId)
          | first :: _ =>
              match first with
              | JStr _ => ret (inr ids)
              | _ => ret (inl BadStatusBody)
              end
          end
      | _ => ret (inl BadStatusBody)
      end
  else
    match dict_get "id" (query request) with
    | Some text => ret (inr (JList (map JStr (split "," text))))
    | None => ret (inl MissingStatusId)
    end.

(** [list_statuses] *)
Definition list_statuses (self : RouteHandler) (request : Request) : M returned :=
  let error_traps := [StatusesNotReturned] in
  (* Parse batch ids from POST body, or query paramaters *)
  parsed <- parse_batch_ids request ;;
  match parsed with
  | inl e => ret (ErrorResponse e)
  | inr ids =>
      (* Query validator *)
      validator_query <- new_ClientBatchStatusRequest ids ;;
      validator_query <- _set_wait self request validator_query ;;
      response <-
        _query_validator self CLIENT_BATCH_STATUS_REQUEST
          ClientBatchStatusResponse_proto (inl validator_query)
          (Some error_traps) ;;
      (* Send response *)
      let metadata :=
        if negb (method request =? "POST")%string
        then Some (_get_metadata request response)
        else None in
      let data :=
        match dict_get "batch_statuses" response with
        | Some v => v
        | None => JNone
        end in
      ret (Response (_wrap_response data metadata 200))
  end.

End Handlers.

(** * Vocabulary of the properties *)

(** ** Traps *)

(** The trap for a status code, if the reply class defines the code. *)
Definition defined_trap (cls : Z -> ErrorTrap) (code : option Z) : list ErrorTrap :=
  match code with
  | Some c => [cls c]
  | None => []
  end.

(** "INTERNAL_ERROR -> Unknown, NOT_READY -> NotReady, NO_ROOT -> MissingHead",
    each "when the reply type defines" the code. *)
Definition baseline_traps {T} (proto : ReplyProto T) : list ErrorTrap :=
  defined_trap Unknown (INTERNAL_ERROR proto)
    ++ defined_trap NotReady (NOT_READY proto)
    ++ defined_trap MissingHead (NO_ROOT proto).

(** The traps of the call site; [None] when it passes none. *)
Definition given_traps (traps : option (list ErrorTrap)) : list ErrorTrap :=
  match traps with
  | Some l => l
  | None => []
  end.

(** The order the spec gives: the caller's traps, then the baseline. *)
Definition trap_order {T} (proto : ReplyProto T) (traps : option (list ErrorTrap))
    : list ErrorTrap :=
  given_traps traps ++ baseline_traps proto.

(** A trap lets a status through; the checks recorded for a list of traps. *)
Definition passes (status : Z) (t : ErrorTrap) : Prop := trigger t <> status.

Definition checks (status : Z) (l : list ErrorTrap) : list event :=
  map (fun t => Checked t status) l.

(** ** Validator requests *)

(** The bytes that go out for a query. *)
Definition wire {Q} `{ValidatorQuery Q} (content : Q + bytes) : bytes :=
  match content with
  | inl message => SerializeToString message
  | inr raw => raw
  end.

(** ** The [wait] parameter *)

(** No wait is requested: the parameter is absent, or reads [false] in
    any mix of upper and lower case. *)
Definition wait_declined (request : Request) : Prop :=
  match dict_get "wait" (query request) with
  | None => True
  | Some w => lower w = "false"
  end.

(** [request.url.query.get('wait', 'false')] *)
Definition wait_text (request : Request) : string :=
  match dict_get "wait" (query request) with
  | Some w => w
  | None => "false"
  end.

(** ** Metadata and envelopes *)

(** The reply carries no head id: the key is missing, or its value is
    empty. *)
Definition carries_no_head (response : dict) : Prop :=
  match dict_get "head_id" response with
  | None => True
  | Some h => truthy h = false
  end.

(** [&key=value] for every query parameter but [head], in order. *)
Fixpoint other_params (q : list (string * string)) : string :=
  match q with
  | [] => ""
  | (k, v) :: q' =>
      if (k =? "head")%string then other_params q'
      else "&" +++ k +++ "=" +++ v +++ other_params q'
  end.






(** ** Request validation *)

Definition is_response (r : returned) : Prop :=
  match r with
  | Response _ => True
  | ErrorResponse _ => False
  end.

(** What the checks of a POST body let through. *)
Definition well_formed_ids (ids : json) : Prop :=
  exists first rest, ids = JList (JStr first :: rest).

(** The text of every element, when every element is text. *)
Fixpoint texts_of (l : list json) : option (list string) :=
  match l with
  | [] => Some []
  | JStr s :: l' => option_map (cons s) (texts_of l')
  | _ :: _ => None
  end.

(** ** Links *)

(** [old in s] *)
Fixpoint occurs (old s : string) : bool :=
  String.prefix old s
  || match s with
     | EmptyString => false
     | String _ s' => occurs old s'
     end.

(** [c in s], for one character. *)
Fixpoint mentions (c : ascii) (s : string) : bool :=
  match s with
  | EmptyString => false
  | String x s' => (x =? c)%char || mentions c s'
  end.

(** [s != 'COMMITTED'] on an entry of the status map. *)
Definition uncommitted (entry : string * string) : bool :=
  negb (snd entry =? "COMMITTED")%string.

(** The response whose body is [envelope], serialized. *)
Definition envelope_response (status : Z) (envelope : dict) : web.Response :=
  {| web.status := status;
     web.content_type := "application/json";
     web.text := json_dumps (JDict envelope) |}.

(** The link of a submission that is still pending. *)
Definition status_link (request : Request) (batch_list : list Batch) : string :=
  scheme request +++ "://" +++ host request +++ "/batch_status?id="
    +++ join "," (map header_signature batch_list).

(** ** Header expansion *)

(** The header of a record decodes: it is base64 text of a protobuf
    header of class [p]. *)
Definition decodes `{Environment} (p : header_proto) (obj : json) : bool :=
  match obj with
  | JDict d =>
      match dict_get "header" d with
      | Some (JStr s) =>
          match b64decode s with
          | Some raw =>
              match ParseFromString (header_class p) raw with
              | Some _ => true
              | None => false
              end
          | None => false
          end
      | _ => false
      end
  | _ => false
  end.

(** The records listed under [key]; none when the key is missing. *)
Definition children (key : string) (obj : json) : list json :=
  match obj with
  | JDict d =>
      match dict_get key d with
      | Some (JList l) => l
      | _ => []
      end
  | _ => []
  end.

(** [key] is missing, or holds a list. *)
Definition lists_children (key : string) (obj : json) : bool :=
  match obj with
  | JDict d =>
      match dict_get key d with
      | None => true
      | Some (JList _) => true
      | Some _ => false
      end
  | _ => false
  end.

Definition valid_transaction `{Environment} (t : json) : bool :=
  decodes TransactionHeader t.

Definition valid_batch `{Environment} (b : json) : bool :=
  decodes BatchHeader b && lists_children "transactions" b
  && forallb valid_transaction (children "transactions" b).

Definition valid_block `{Environment} (block : json) : bool :=
  decodes BlockHeader block && lists_children "batches" block
  && forallb valid_batch (children "batches" block).

(** The header of a record is a dict, not text. *)
Definition header_expanded (obj : json) : bool :=
  match obj with
  | JDict d =>
      match dict_get "header" d with
      | Some (JDict _) => true
      | _ => false
      end
  | _ => false
  end.

Definition batch_expanded (b : json) : bool :=
  header_expanded b && forallb header_expanded (children "transactions" b).

Definition block_expanded (block : json) : bool :=
  header_expanded block && forallb batch_expanded (children "batches" block).

(** The number of transactions of each batch, in order. *)
Definition transaction_counts (block : json) : list nat :=
  map (fun b => List.length (children "transactions" b)) (children "batches" block).

(** [obj['header']] *)
Definition header_of (obj : json) : json :=
  match obj with
  | JDict d =>
      match dict_get "header" d with
      | Some h => h
      | None => JNone
      end
  | _ => JNone
  end.

(** The order in which the headers of a block are decoded: the block, then
    each batch followed by its own transactions. *)
Definition batch_decodes (b : json) : list event :=
  Decoded BatchHeader (header_of b)
    :: map (fun t => Decoded TransactionHeader (header_of t))
         (children "transactions" b).

Definition block_decodes (block : json) : list event :=
  Decoded BlockHeader (header_of block)
    :: flat_map batch_decodes (children "batches" block).

(** The record with its header decoded, and with its children replaced. *)
Definition with_header `{Environment} (p : header_proto) (obj : json) : json :=
  match obj with
  | JDict d =>
      match dict_get "header" d with
      | Some (JStr s) =>
          match b64decode s with
          | Some raw =>
              match ParseFromString (header_class p) raw with
              | Some h =>
                  JDict (dict_set "header" (JDict (MessageToDict (header_class p) h)) d)
              | None => obj
              end
          | None => obj
          end
      | _ => obj
      end
  | _ => obj
  end.

Definition with_children (key : string) (f : json -> json) (obj : json) : json :=
  match obj with
  | JDict d =>
      match dict_get key d with
      | Some (JList l) => JDict (dict_set key (JList (map f l)) d)
      | _ => obj
      end
  | _ => obj
  end.

Definition expanded_batch `{Environment} (b : json) : json :=
  with_children "transactions" (with_header TransactionHeader)
    (with_header BatchHeader b).

Definition expanded_block `{Environment} (block : json) : json :=
  with_children "batches" expanded_batch (with_header BlockHeader block).

(** The decoded form of the header of a record: [MessageToDict] of the
    protobuf header of class [p] that its base64 text holds. *)
Definition decoded_header `{Environment} (p : header_proto) (obj : json) : option json :=
  match obj with
  | JDict d =>
      match dict_get "header" d with
      | Some (JStr s) =>
          match b64decode s with
          | Some raw =>
              match ParseFromString (header_class p) raw with
              | Some h => Some (JDict (MessageToDict (header_class p) h))
              | None => None
              end
          | None => None
          end
      | _ => None
      end
  | _ => None
  end.

(** The header of [expanded] is the decoded form of the header of [obj]. *)
Definition header_decoded `{Environment} (p : header_proto) (obj expanded : json) : Prop :=
  decoded_header p obj = Some (header_of expanded).

(** The same at every level of a batch and of a block, child by child. *)
Definition batch_decoded `{Environment} (b expanded : json) : Prop :=
  header_decoded BatchHeader b expanded
  /\ Forall2 (header_decoded TransactionHeader)
       (children "transactions" b) (children "transactions" expanded).

Definition block_decoded `{Environment} (block expanded : json) : Prop :=
  header_decoded BlockHeader block expanded
  /\ Forall2 batch_decoded (children "batches" block) (children "batches" expanded).

(** * A stand-in for the imports

    Enough of an environment to run the handlers on concrete requests:
    headers are text whose decoding is the text itself, the validator
    echoes what it is sent, and replies are read off the echoed bytes. *)

Definition text_of (b : bytes) : string := string_of_list_byte b.
Definition bytes_of (s : string) : bytes := list_byte_of_string s.

Definition quoted (s : string) : string := String dquote (s +++ String dquote "").

(** Request bodies the stand-in can read as JSON. *)
Definition body_one_id : string := "[" +++ quoted "aaa" +++ "]".
Definition body_mixed : string := "[" +++ quoted "aaa" +++ ", 1]".
Definition body_empty : string := "[]".
Definition body_object : string := "{}".

Definition demo_json_loads (b : bytes) : option json :=
  let s := text_of b in
  if (s =? body_one_id)%string then Some (JList [JStr "aaa"])
  else if (s =? body_mixed)%string then Some (JList [JStr "aaa"; JInt 1])
  else if (s =? body_empty)%string then Some (JList [])
  else if (s =? body_object)%string then Some (JDict [])
  else None.

(** A header that starts with an exclamation mark does not decode. *)
Definition demo_b64decode (s : string) : option bytes :=
  match s with
  | String "!" _ => None
  | _ => Some (bytes_of s)
  end.

Definition demo_header_class (p : header_proto) : Proto string := {|
  ParseFromString := fun b => match b with [] => None | _ => Some (text_of b) end;
  MessageToDict := fun h => [("signer_pubkey", JStr h)]
|}.

(** A batch list is its batch ids, separated by commas. *)
Definition demo_batch (id : string) : Batch :=
  {| header := []; header_signature := id; transactions := [] |}.

Definition demo_BatchList (b : bytes) : option (list Batch) :=
  match text_of b with
  | String "?" _ => None
  | s => Some (map demo_batch (split "," s))
  end.

(** A submit request is serialized as its batch ids; the reply to it
    reports every batch whose id does not start with [p] as committed, and
    no batch at all when the first id starts with [n]. *)
Definition demo_status_of (id : string) : string :=
  match id with
  | String "p" _ => "PENDING"
  | _ => "COMMITTED"
  end.

Definition demo_statuses (s : string) : list (string * string) :=
  match s with
  | String "n" _ => []
  | _ => map (fun id => (id, demo_status_of id)) (split "," s)
  end.

(** Status 0 is OK; a reply to a message that starts with [x] has
    status 1, the internal error of both replies. *)
Definition demo_status (s : string) : Z :=
  match s with
  | String "x" _ => 1
  | _ => 0
  end.

Definition demo_environment : Environment := {|
  repr := fun _ => "<container>";
  json_loads := demo_json_loads;
  b64decode := demo_b64decode;
  CLIENT_BATCH_SUBMIT_REQUEST := 119;
  CLIENT_BATCH_STATUS_REQUEST := 116;
  Header := string;
  header_class := demo_header_class;
  BatchList_ParseFromString := demo_BatchList;
  submit_request_bytes := fun q => bytes_of (join "," (map header_signature (batches q)));
  status_request_bytes := fun q => bytes_of (join "," (batch_ids q));
  timeout_range := fun z => (0 <=? z) && (z <? 2 ^ 32);
  submit_response_parse := fun b =>
    Some {| submit_status := demo_status (text_of b);
            submit_batch_statuses := demo_statuses (text_of b) |};
  submit_status_name := fun z => if z =? 0 then "OK" else "INTERNAL_ERROR";
  submit_INTERNAL_ERROR := Some 1;
  submit_NOT_READY := None;
  submit_NO_ROOT := None;
  INVALID_BATCH := 2;
  statuses_response_parse := fun b =>
    Some {| statuses_status := demo_status (text_of b);
            statuses_batch_statuses := demo_statuses (text_of b) |};
  statuses_status_name := fun z => if z =? 0 then "OK" else "INTERNAL_ERROR";
  statuses_INTERNAL_ERROR := Some 1;
  statuses_NOT_READY := None;
  statuses_NO_ROOT := Some 4;
  NO_RESOURCE := 5
|}.

(** The validator answers with what it was sent; a message that starts
    with [t] is never answered, one that starts with [d] finds the
    connection closed. *)
Definition demo_stream : Stream := {|
  send := fun _ content _ =>
    match text_of content with
    | String "t" _ => TimedOut
    | String "d" _ => Arrived FutureError
    | _ => Arrived (FutureResult content)
    end
|}.

Definition demo_handler : RouteHandler :=
  {| _stream := demo_stream; _timeout := DEFAULT_TIMEOUT |}.

(** A gateway whose timeout is so long that 95% of it does not fit the 32
    bits of the timeout field of the stand-in. *)
Definition patient_handler : RouteHandler :=
  {| _stream := demo_stream; _timeout := 5000000000 |}.

Definition demo_request (method : string) (content_type : list (string * string))
    (host path : string) (query : list (string * string)) (url body : string) : Request :=
  {| method := method; scheme := "http"; host := host; path := path;
     headers := content_type; query := query; url := url; body := bytes_of body |}.

(** Requests for the examples. *)

Definition fresh_submit_request : ClientBatchSubmitRequest :=
  {| batches := []; submit_wait_for_commit := false; submit_timeout := 0 |}.

Definition wait_request (wait : string) : Request :=
  demo_request "POST" [("Content-Type", "application/octet-stream")]
    "localhost:8080" "/batches" [("wait", wait)]
    ("http://localhost:8080/batches?wait=" +++ wait) "aaa".

Definition state_request (query : list (string * string)) (url : string) : Request :=
  demo_request "GET" [] "localhost:8080" "/state" query url "".

Definition post_status_request (body : string) : Request :=
  demo_request "POST" [("Content-Type", "application/json")]
    "localhost:8080" "/batch_status" [] "http://localhost:8080/batch_status" body.

Definition bare_request (method path body : string) : Request :=
  demo_request method [("Accept", "application/json")]
    "localhost:8080" path [] ("http://localhost:8080" +++ path) body.

Definition submit_request (host body : string) : Request :=
  demo_request "POST" [("Content-Type", "application/octet-stream")]
    host "/batches" [("wait", "30")] ("http://" +++ host +++ "/batches?wait=30") body.

Definition submitted (ids : list string) (wait : bool) (timeout : Z)
    : ClientBatchSubmitRequest :=
  {| batches := map demo_batch ids; submit_wait_for_commit := wait;
     submit_timeout := timeout |}.

(** A block of two batches; the first has two transactions. *)
Definition demo_transaction (header : string) : json :=
  JDict [("header", JStr header); ("header_signature", JStr "t"); ("payload", JStr "cGF5")].

Definition demo_block : json :=
  JDict [("header", JStr "QmxvY2s=");
         ("header_signature", JStr "b");
         ("batches",
          JList [JDict [("header", JStr "QmF0Y2gx");
                        ("header_signature", JStr "aaa");
                        ("transactions",
                         JList [demo_transaction "VHhuMQ=="; demo_transaction "VHhuMg=="])];
                 JDict [("header", JStr "QmF0Y2gy");
                        ("header_signature", JStr "bbb");
                        ("transactions", JList [])]])].

(** * Vocabulary of the further properties *)

(** The query parameters other than [head]. *)
Definition without_head (q : list (string * string)) : list (string * string) :=
  filter (fun kv => negb (fst kv =? "head")%string) q.

(** The headers of a batch and of its listed transactions decode. *)
Definition batch_headers_decode `{Environment} (b : json) : bool :=
  decodes BatchHeader b
  && forallb (decodes TransactionHeader) (children "transactions" b).

(** The status codes of a submission. *)
Definition submission_status (code : Z) : Prop :=
  code = 200 \/ code = 201 \/ code = 202.

(** The first batch of the block of the examples. *)
Definition demo_first_batch : json :=
  JDict [("header", JStr "QmF0Y2gx");
         ("header_signature", JStr "aaa");
         ("transactions",
          JList [demo_transaction "VHhuMQ=="; demo_transaction "VHhuMg=="])].

(** A second stand-in, whose validator also rejects: a reply to a message
    that starts with [i] has the status of an invalid batch, one to a
    message that starts with [r] the status of statuses that are not
    returned. *)
Definition strict_status (s : string) : Z :=
  match s with
  | String "i" _ => 2
  | String "r" _ => 5
  | _ => demo_status s
  end.

Definition strict_environment : Environment := {|
  repr := @repr demo_environment;
  json_loads := demo_json_loads;
  b64decode := demo_b64decode;
  CLIENT_BATCH_SUBMIT_REQUEST := 119;
  CLIENT_BATCH_STATUS_REQUEST := 116;
  Header := string;
  header_class := demo_header_class;
  BatchList_ParseFromString := demo_BatchList;
  submit_request_bytes := @submit_request_bytes demo_environment;
  status_request_bytes := @status_request_bytes demo_environment;
  timeout_range := @timeout_range demo_environment;
  submit_response_parse := fun b =>
    Some {| submit_status := strict_status (text_of b);
            submit_batch_statuses := demo_statuses (text_of b) |};
  submit_status_name := @submit_status_name demo_environment;
  submit_INTERNAL_ERROR := Some 1;
  submit_NOT_READY := None;
  submit_NO_ROOT := None;
  INVALID_BATCH := 2;
  statuses_response_parse := fun b =>
    Some {| statuses_status := strict_status (text_of b);
            statuses_batch_statuses := demo_statuses (text_of b) |};
  statuses_status_name := @statuses_status_name demo_environment;
  statuses_INTERNAL_ERROR := Some 1;
  statuses_NOT_READY := None;
  statuses_NO_ROOT := Some 4;
  NO_RESOURCE := 5
|}.

Definition get_status_request (ids : string) : Request :=
  demo_request "GET" [] "localhost:8080" "/batch_status" [("id", ids)]
    ("http://localhost:8080/batch_status?id=" +++ ids) "".

(** The number of messages sent to the validator in a trace. *)
Definition sends (t : list event) : nat :=
  List.length (filter (fun ev => match ev with Sent _ _ => true | _ => false end) t).

(** * Properties *)

(** ** The Python primitives on small inputs *)

Example int_examples :
  int " 12 " = Some 12 /\ int "-5" = Some (-5) /\ int "+7" = Some 7
  /\ int "1_000" = Some 1000 /\ int "007" = Some 7
  /\ int "" = None /\ int "yes" = None /\ int "1.5" = None /\ int "- 7" = None
  /\ int "1__0" = None /\ int "_1" = None.
Proof. repeat split. Qed.

Example lower_examples :
  lower "False" = "false" /\ lower "FALSE" = "false" /\ lower "true" = "true".
Proof. repeat split. Qed.

Example split_examples :
  split "," "aaa,bbb" = ["aaa"; "bbb"] /\ split "," "" = [""]
  /\ split "," "a,,b" = ["a"; ""; "b"].
Proof. repeat split. Qed.

Example replace_examples :
  replace "batch_status" "batches" "http://h/batch_status?id=a,b"
  = "http://h/batches?id=a,b"
  /\ replace "aa" "b" "aaaaa" = "bba"
  /\ replace "" "-" "ab" = "-a-b-".
Proof. repeat split. Qed.

Example int_blank_examples :
  int (String (chr 28) "30") = None /\ int ("30" +++ String (chr 31) "") = None
  /\ int (String (chr 160) "30") = Some 30 /\ int (String (chr 133) "30") = Some 30
  /\ int "3 0" = None.
Proof. repeat split. Qed.

Example int_095_examples :
  int_095 300 = Some 285 /\ int_095 10 = Some 9 /\ int_095 1 = Some 0
  /\ int_095 (-10) = Some (-9) /\ int_095 0 = Some 0
  /\ int_095 (2 ^ 53 + 1) = Some 8556839292003942
  /\ int_095 (10 ^ 18 + 7) = Some 950000000000000000
  /\ int_095 (2 ^ 1024) = None.
Proof. vm_compute. repeat split. Qed.

Example json_dumps_example :
  json_dumps (JDict [("link", JStr "http://h/x"); ("data", JList [JInt 1; JNone])])
  = "{" +++ String newline
      ("  " +++ quoted "data" +++ ": [" +++ String newline
      ("    1," +++ String newline
      ("    null" +++ String newline
      ("  ]," +++ String newline
      ("  " +++ quoted "link" +++ ": " +++ quoted "http://h/x" +++ String newline "}"))))).
Proof. reflexivity. Qed.

(** ** The monad *)

Lemma bind_ok {A B} (c : M A) (k : A -> M B) (a : A) :
  value c = Ok a -> bind c k = (value (k a), trace c ++ trace (k a)).
Proof.
  destruct c as [r t]; simpl; intros ->.
  unfold bind. now destruct (k a).
Qed.

Lemma bind_ret {A B} (a : A) (k : A -> M B) : bind (ret a) k = k a.
Proof.
  unfold bind, ret. now destruct (k a).
Qed.

Lemma bind_emit {B} (ev : event) (k : unit -> M B) :
  bind (emit ev) k = (value (k tt), ev :: trace (k tt)).
Proof.
  unfold bind, emit. now destruct (k tt).
Qed.

(** ** The trap chain *)

Lemma append_if_defined_app cls code l :
  append_if_defined cls code l = l ++ defined_trap cls code.
Proof.
  destruct code; simpl; [reflexivity | now rewrite app_nil_r].
Qed.

Lemma check_pass status t :
  passes status t -> check t status = (Ok tt, [Checked t status]).
Proof.
  unfold passes, check. intros Hne.
  rewrite bind_emit.
  destruct (Z.eqb_spec status (trigger t)) as [E | _]; [now symmetry in E | reflexivity].
Qed.

Lemma check_stop status t :
  trigger t = status ->
  check t status = (Raise (HTTPError (error t)), [Checked t status]).
Proof.
  unfold check. intros <-.
  rewrite bind_emit, Z.eqb_refl. reflexivity.
Qed.

Lemma for_each_pass status l :
  Forall (passes status) l ->
  for_each (fun trap => check trap status) l = (Ok tt, checks status l).
Proof.
  induction 1 as [| t l Ht _ IH]; [reflexivity |].
  simpl. rewrite (check_pass _ _ Ht). unfold bind. rewrite IH. reflexivity.
Qed.

Lemma for_each_stop status pre t post :
  Forall (passes status) pre ->
  trigger t = status ->
  for_each (fun trap => check trap status) (pre ++ t :: post)
  = (Raise (HTTPError (error t)), checks status (pre ++ [t])).
Proof.
  intros Hpre Ht.
  induction Hpre as [| p pre Hp _ IH]; simpl.
  - rewrite (check_stop _ _ Ht). reflexivity.
  - rewrite (check_pass _ _ Hp). unfold bind. rewrite IH. reflexivity.
Qed.

Lemma response_parse_traps {T} (proto : ReplyProto T) (traps : option (list ErrorTrap)) :
  append_if_defined MissingHead (NO_ROOT proto)
    (append_if_defined NotReady (NOT_READY proto)
       (append_if_defined Unknown (INTERNAL_ERROR proto)
          (match traps with Some (t :: ts) => t :: ts | _ => [] end)))
  = trap_order proto traps.
Proof.
  rewrite !append_if_defined_app. unfold trap_order, baseline_traps.
  rewrite <- !app_assoc. f_equal.
  destruct traps as [[| t ts] |]; reflexivity.
Qed.

Lemma try_response_parse_unfold {T} (proto : ReplyProto T) response traps parsed :
  ParseFromString proto response = Some parsed ->
  _try_response_parse proto response traps
  = (for_each (fun trap => check trap (status proto parsed)) (trap_order proto traps) ;;;
     ret (message_to_dict proto parsed)).
Proof.
  intros Hparse. unfold _try_response_parse.
  rewrite Hparse. unfold lift. rewrite bind_ret.
  now rewrite response_parse_traps.
Qed.

(** C2. [_try_response_parse] consults the caller's traps in the order
    given and then the baseline traps Unknown, NotReady and MissingHead,
    each only if the reply class defines its status code; the first trap
    whose code is the reply's status raises its error, and no later trap
    is consulted; when none matches, every trap has been consulted and the
    parsed reply is returned as a dict. *)
Theorem try_response_parse_trap_order {T} (proto : ReplyProto T)
    (response : bytes) (traps : option (list ErrorTrap)) (parsed : T) :
  ParseFromString proto response = Some parsed ->
  (forall pre t post,
      trap_order proto traps = pre ++ t :: post ->
      Forall (passes (status proto parsed)) pre ->
      trigger t = status proto parsed ->
      _try_response_parse proto response traps
      = (Raise (HTTPError (error t)), checks (status proto parsed) (pre ++ [t])))
  /\ (Forall (passes (status proto parsed)) (trap_order proto traps) ->
      _try_response_parse proto response traps
      = (Ok (message_to_dict proto parsed),
         checks (status proto parsed) (trap_order proto traps))).
Proof.
  intros Hparse. rewrite (try_response_parse_unfold _ _ _ _ Hparse). split.
  - intros pre t post Hsplit Hpre Ht. rewrite Hsplit.
    rewrite (for_each_stop _ _ _ _ Hpre Ht). reflexivity.
  - intros Hall. rewrite (for_each_pass _ _ Hall).
    unfold bind, ret. now rewrite app_nil_r.
Qed.

Lemma try_response_parse_trap_order_example :
  let proto := @ClientBatchSubmitResponse_proto demo_environment in
  let traps := Some [@InvalidBatch demo_environment] in
  _try_response_parse proto (bytes_of "xa") traps
  = (Raise (HTTPError UnknownError),
     checks 1 [@InvalidBatch demo_environment; Unknown 1])
  /\ _try_response_parse proto (bytes_of "aa") traps
     = (Ok [("status", JStr "OK");
            ("batch_statuses", JDict [("aa", JStr "COMMITTED")])],
        checks 0 [@InvalidBatch demo_environment; Unknown 1]).
Proof.
  intros proto traps. split.
  - destruct (try_response_parse_trap_order proto (bytes_of "xa") traps
                {| submit_status := 1;
                   submit_batch_statuses := [("xa", "COMMITTED")] |} eq_refl)
      as [Hstop _].
    apply (Hstop [@InvalidBatch demo_environment] (Unknown 1) [] eq_refl).
    + repeat constructor. unfold passes; simpl; lia.
    + reflexivity.
  - destruct (try_response_parse_trap_order proto (bytes_of "aa") traps
                {| submit_status := 0;
                   submit_batch_statuses := [("aa", "COMMITTED")] |} eq_refl)
      as [_ Hpass].
    apply Hpass. repeat constructor; unfold passes; simpl; lia.
Defined.

(** ** The validator request *)

(** C5. [_try_validator_request] raises [ValidatorUnavailable] when the
    wait for the future times out and when the content of the resolved
    response raises a connection error; otherwise it returns the reply's
    content as it is.  In every case the message went out once: there is
    no retry. *)
Theorem try_validator_request_unavailable {Q} `{ValidatorQuery Q}
    (self : RouteHandler) (message_type : Z) (content : Q + bytes) :
  let future := send (_stream self) message_type (wire content) in
  let call := _try_validator_request self message_type content in
  trace call = [Sent message_type (wire content)]
  /\ (future (_timeout self) = TimedOut ->
      value call = Raise (HTTPError ValidatorUnavailable))
  /\ (future (_timeout self) = Arrived FutureError ->
      value call = Raise (HTTPError ValidatorUnavailable))
  /\ (forall c, future (_timeout self) = Arrived (FutureResult c) ->
      value call = Ok c).
Proof.
  intros future call. subst future call.
  unfold _try_validator_request. fold (wire content).
  rewrite bind_emit.
  destruct (send (_stream self) message_type (wire content) (_timeout self))
    as [| [c |]]; simpl; repeat split; congruence.
Qed.

Lemma try_validator_request_unavailable_example :
  let ask (s : string) :=
    @_try_validator_request ClientBatchStatusRequest
      (@status_query demo_environment) demo_handler 116 (inr (bytes_of s)) in
  value (ask "timeout") = Raise (HTTPError ValidatorUnavailable)
  /\ value (ask "disconnect") = Raise (HTTPError ValidatorUnavailable)
  /\ value (ask "aaa") = Ok (bytes_of "aaa")
  /\ trace (ask "timeout") = [Sent 116 (bytes_of "timeout")].
Proof.
  intros ask.
  pose proof (@try_validator_request_unavailable ClientBatchStatusRequest
                (@status_query demo_environment) demo_handler 116) as P.
  destruct (P (inr (bytes_of "timeout"))) as (Ht & Htimeout & _ & _).
  destruct (P (inr (bytes_of "disconnect"))) as (_ & _ & Hdisc & _).
  destruct (P (inr (bytes_of "aaa"))) as (_ & _ & _ & Hok).
  split; [| split; [| split]].
  - apply Htimeout. reflexivity.
  - apply Hdisc. reflexivity.
  - apply (Hok (bytes_of "aaa")). reflexivity.
  - exact Ht.
Defined.

(** ** The [wait] parameter *)

Lemma wait_declined_text request :
  wait_declined request <-> lower (wait_text request) = "false".
Proof.
  unfold wait_declined, wait_text.
  destruct (dict_get "wait" (query request)); [reflexivity |].
  split; [reflexivity | trivial].
Qed.

Lemma set_timeout_some {Q} `{ValidatorQuery Q} (z : Z) (q q' : Q) :
  set_timeout z q = Some q' ->
  timeout q' = z /\ wait_for_commit q' = wait_for_commit q
  /\ timeout_accepts z = true.
Proof.
  intros E. pose proof (set_timeout_spec z q) as S.
  destruct (timeout_accepts z).
  - destruct S as (q'' & E' & Ht & Hw). rewrite E' in E. inversion E; subst. auto.
  - congruence.
Qed.

Lemma set_timeout_accepted {Q} `{ValidatorQuery Q} (z : Z) (q : Q) :
  timeout_accepts z = true ->
  exists q', set_timeout z q = Some q' /\ timeout q' = z
             /\ wait_for_commit q' = wait_for_commit q.
Proof.
  intros A. pose proof (set_timeout_spec z q) as S. now rewrite A in S.
Qed.

Lemma set_wait_declined {Q} `{ValidatorQuery Q} self request (q : Q) :
  lower (wait_text request) = "false" -> _set_wait self request q = ret q.
Proof.
  intros E. unfold _set_wait. fold (wait_text request).
  rewrite E. reflexivity.
Qed.

Lemma set_wait_requested {Q} `{ValidatorQuery Q} self request (q : Q) :
  lower (wait_text request) <> "false" ->
  _set_wait self request q =
    let q1 := set_wait_for_commit true q in
    match match int (wait_text request) with
          | Some n => set_timeout n q1
          | None => None
          end with
    | Some q' => ret q'
    | None =>
        match int_095 (_timeout self) with
        | Some default => lift ValueError (set_timeout default q1)
        | None => raise OverflowError
        end
    end.
Proof.
  intros E. unfold _set_wait. fold (wait_text request).
  apply String.eqb_neq in E. rewrite E. cbv zeta.
  destruct (match int (wait_text request) with
            | Some n => set_timeout n (set_wait_for_commit true q)
            | None => None
            end); [reflexivity |].
  destruct (int_095 (_timeout self)) as [default |]; [| reflexivity].
  cbn [lift]. rewrite bind_ret. reflexivity.
Qed.

(** The attempt inside the [try] fails when [int(wait)] raises, and when
    the field refuses the integer. *)
Lemma set_wait_attempt_failed {Q} `{ValidatorQuery Q} (wait : string) (q1 : Q) :
  match int wait with
  | Some n => set_timeout n q1
  | None => None
  end = None
  <-> (forall n, int wait = Some n -> timeout_accepts n = false).
Proof.
  destruct (int wait) as [n |].
  - pose proof (set_timeout_spec n q1) as S. split.
    + intros E m Hm. inversion Hm; subst m.
      destruct (timeout_accepts n); [| reflexivity].
      destruct S as (q' & E' & _). congruence.
    + intros R. rewrite (R n eq_refl) in S. exact S.
  - split; [discriminate | reflexivity].
Qed.

(** A wait that was requested never hands the query back as it was. *)
Lemma set_wait_requested_changes {Q} `{ValidatorQuery Q} self request (q q' : Q) :
  lower (wait_text request) <> "false" ->
  value (_set_wait self request q) = Ok q' ->
  wait_for_commit q' = true.
Proof.
  intros E. rewrite (set_wait_requested _ _ _ E). cbv zeta.
  set (q1 := set_wait_for_commit true q).
  assert (W : wait_for_commit q1 = true) by apply wait_for_commit_set.
  destruct (match int (wait_text request) with
            | Some n => set_timeout n q1
            | None => None
            end) as [q2 |] eqn:A.
  - simpl. intros V; inversion V; subst q2.
    destruct (int (wait_text request)) as [n |]; [| discriminate].
    apply set_timeout_some in A. destruct A as (_ & A & _). congruence.
  - destruct (int_095 (_timeout self)) as [default |]; [| discriminate].
    destruct (set_timeout default q1) as [q2 |] eqn:B; simpl.
    + intros V; inversion V; subst q2.
      apply set_timeout_some in B. destruct B as (_ & B & _). congruence.
    + discriminate.
Qed.

(** C6, as amended. [_set_wait] leaves the query as it is exactly when the
    [wait] parameter is absent or reads [false] in any letter case.
    Otherwise a query that it returns has [wait_for_commit] set; it
    returns one with the timeout [int(wait)] when the parameter parses as
    an integer that the timeout field takes; and when the parameter does
    not parse, or parses as an integer that the field refuses, it returns
    one with the timeout [int(0.95 * timeout)] of the gateway, whenever
    that default is a value the field takes. *)
Theorem set_wait_amended {Q} `{ValidatorQuery Q}
    (self : RouteHandler) (request : Request) (q : Q) :
  wait_for_commit q = false ->
  (_set_wait self request q = ret q <-> wait_declined request)
  /\ (~ wait_declined request ->
      (forall q', value (_set_wait self request q) = Ok q' ->
                  wait_for_commit q' = true)
      /\ (forall n, int (wait_text request) = Some n -> timeout_accepts n = true ->
            exists q', _set_wait self request q = ret q'
                       /\ wait_for_commit q' = true /\ timeout q' = n)
      /\ (forall default,
            (forall n, int (wait_text request) = Some n ->
                       timeout_accepts n = false) ->
            int_095 (_timeout self) = Some default ->
            timeout_accepts default = true ->
            exists q', _set_wait self request q = ret q'
                       /\ wait_for_commit q' = true
                       /\ timeout q' = default)).
Proof.
  intros Fresh. rewrite wait_declined_text. split; [split |].
  - intros E.
    destruct (string_dec (lower (wait_text request)) "false") as [D | D]; [exact D |].
    assert (V : value (_set_wait self request q) = Ok q) by now rewrite E.
    apply (set_wait_requested_changes _ _ _ _ D) in V. congruence.
  - apply set_wait_declined.
  - intros D.
    assert (W : wait_for_commit (set_wait_for_commit true q) = true)
      by apply wait_for_commit_set.
    split; [intros q'; now apply set_wait_requested_changes |].
    rewrite (set_wait_requested _ _ _ D). cbv zeta. split.
    + intros n Hint Hacc. rewrite Hint.
      destruct (set_timeout_accepted n (set_wait_for_commit true q) Hacc)
        as (q' & E & Ht & Hw).
      rewrite E. exists q'. repeat split; congruence.
    + intros default Hfail Hdefault Hacc.
      apply (set_wait_attempt_failed _ (set_wait_for_commit true q)) in Hfail.
      rewrite Hfail, Hdefault.
      destruct (set_timeout_accepted _ (set_wait_for_commit true q) Hacc)
        as (q' & E & Ht & Hw).
      rewrite E. exists q'. repeat split; congruence.
Qed.

Lemma set_wait_amended_example :
  let set_wait (wait : string) :=
    @_set_wait _ (@submit_query demo_environment) demo_handler
      (wait_request wait) fresh_submit_request in
  set_wait "FALSE" = ret fresh_submit_request
  /\ (exists q', set_wait "30" = ret q'
                 /\ submit_wait_for_commit q' = true /\ submit_timeout q' = 30)
  /\ (exists q', set_wait "yes" = ret q'
                 /\ submit_wait_for_commit q' = true /\ submit_timeout q' = 285)
  /\ (exists q', set_wait "-1" = ret q'
                 /\ submit_wait_for_commit q' = true /\ submit_timeout q' = 285).
Proof.
  intros set_wait.
  pose proof (fun wait =>
    @set_wait_amended _ (@submit_query demo_environment) demo_handler
      (wait_request wait) fresh_submit_request eq_refl) as P.
  split; [| split; [| split]].
  - apply (P "FALSE"). reflexivity.
  - destruct (P "30") as [_ R].
    assert (D : ~ wait_declined (wait_request "30")) by (cbv; discriminate).
    destruct (R D) as (_ & Hint & _). apply (Hint 30); reflexivity.
  - destruct (P "yes") as [_ R].
    assert (D : ~ wait_declined (wait_request "yes")) by (cbv; discriminate).
    destruct (R D) as (_ & _ & Hdefault).
    apply (Hdefault 285); [intros n I; discriminate I | reflexivity | reflexivity].
  - destruct (P "-1") as [_ R].
    assert (D : ~ wait_declined (wait_request "-1")) by (cbv; discriminate).
    destruct (R D) as (_ & _ & Hdefault).
    apply (Hdefault 285);
      [intros n I; inversion I; reflexivity | reflexivity | reflexivity].
Defined.

(** The claim as worded fails in three places.  The query is left alone
    for [wait=False], which is neither absent nor the literal text
    [false].  With a timeout field of 32 unsigned bits, as in the stand-in,
    [wait=-1] parses as an integer, yet the timeout is not [int(wait)]:
    the [ValueError] of the assignment is caught with that of [int].  And
    with a gateway timeout of 5000000000 seconds, [wait=yes] does not
    parse, yet the timeout is not set to the default of 4750000000, which
    the field refuses: the call raises. *)
Lemma set_wait_as_worded_counterexample :
  let set_wait (self : RouteHandler) (wait : string) :=
    @_set_wait _ (@submit_query demo_environment) self
      (wait_request wait) fresh_submit_request in
  ~ (set_wait demo_handler "False" = ret fresh_submit_request
     <-> (dict_get "wait" (query (wait_request "False")) = None
          \/ dict_get "wait" (query (wait_request "False")) = Some "false"))
  /\ ~ (forall n, int "-1" = Some n ->
          exists q', set_wait demo_handler "-1" = ret q' /\ submit_timeout q' = n)
  /\ ~ (int "yes" = None ->
        int_095 (_timeout patient_handler) = Some 4750000000 ->
        exists q', set_wait patient_handler "yes" = ret q'
                   /\ submit_timeout q' = 4750000000).
Proof.
  intros set_wait. split; [| split].
  - intros [Unset _].
    destruct (Unset eq_refl) as [E | E]; discriminate E.
  - intros P. destruct (P (-1) eq_refl) as (q' & E & T).
    inversion E; subst q'. discriminate T.
  - intros P. destruct (P eq_refl eq_refl) as (q' & E & _). discriminate E.
Qed.

(** ** Text *)

Lemma append_assoc (a b c : string) : (a +++ b) +++ c = a +++ b +++ c.
Proof.
  induction a as [| x a IH]; simpl; [reflexivity | now rewrite IH].
Qed.

Lemma append_nil_r (a : string) : a +++ "" = a.
Proof.
  induction a as [| x a IH]; simpl; [reflexivity | now rewrite IH].
Qed.

(** ** Metadata *)

Lemma join_other_params (q : list (string * string)) :
  let headless :=
    map query_item (filter (fun kv => negb (fst kv =? "head")%string) q) in
  match headless with
  | [] => ""
  | _ => "&" +++ join "&" headless
  end = other_params q.
Proof.
  induction q as [| [k v] q IH]; [reflexivity |].
  cbn [filter fst map other_params]. cbv zeta in IH.
  destruct (k =? "head")%string; [exact IH |].
  cbn [negb map]. rewrite <- IH.
  destruct (map query_item (filter (fun kv => negb (fst kv =? "head")%string) q))
    as [| item rest].
  - unfold query_item; simpl. now rewrite !append_nil_r.
  - unfold query_item, join. cbn [concat fst snd].
    simpl. now rewrite !append_assoc.
Qed.

Lemma get_metadata_link `{Environment} (request : Request) (response : dict) h :
  dict_get "head_id" response = Some h ->
  truthy h = true ->
  _get_metadata request response =
    [("head", h);
     ("link", JStr (scheme request +++ "://" +++ host request +++ path request
                      +++ "?head=" +++ py_str repr h +++ other_params (query request)))].
Proof.
  intros Hget Htrue. unfold _get_metadata. rewrite Hget, Htrue. cbn [negb].
  do 3 f_equal. rewrite <- join_other_params. cbv zeta.
  destruct (map query_item
              (filter (fun kv => negb (fst kv =? "head")%string) (query request))).
  - rewrite append_nil_r. reflexivity.
  - now rewrite !append_assoc.
Qed.

(** C3. [_get_metadata] returns the verbatim request URL as the link, and
    no head, when the reply carries no head id; otherwise it returns the
    head id and a link made of the scheme, host and path of the request,
    [?head=] and the head id, and then every query parameter of the
    request but [head], in the order of the request. *)
Theorem get_metadata_spec `{Environment} (request : Request) (response : dict) :
  (carries_no_head response ->
   _get_metadata request response = [("link", JStr (url request))])
  /\ (forall head_id,
        dict_get "head_id" response = Some (JStr head_id) ->
        head_id <> "" ->
        _get_metadata request response =
          [("head", JStr head_id);
           ("link", JStr (scheme request +++ "://" +++ host request
                            +++ path request +++ "?head=" +++ head_id
                            +++ other_params (query request)))]).
Proof.
  split.
  - unfold carries_no_head, _get_metadata.
    destruct (dict_get "head_id" response) as [h |]; [intros -> |]; reflexivity.
  - intros head_id Hget Hne.
    apply (get_metadata_link request response (JStr head_id) Hget).
    simpl. now apply String.eqb_neq in Hne as ->.
Qed.

Lemma get_metadata_spec_example :
  @_get_metadata demo_environment
    (state_request [("id", "aaa,bbb")] "http://localhost:8080/batch_status?id=aaa,bbb")
    [("status", JStr "OK"); ("batch_statuses", JDict [])]
  = [("link", JStr "http://localhost:8080/batch_status?id=aaa,bbb")]
  /\ @_get_metadata demo_environment
       (state_request [("min", "2"); ("head", "old"); ("max", "9")]
          "http://localhost:8080/state?min=2&head=old&max=9")
       [("head_id", JStr "abc")]
     = [("head", JStr "abc");
        ("link", JStr "http://localhost:8080/state?head=abc&min=2&max=9")].
Proof.
  split.
  - apply (@get_metadata_spec demo_environment). exact I.
  - apply (@get_metadata_spec demo_environment
             (state_request [("min", "2"); ("head", "old"); ("max", "9")]
                "http://localhost:8080/state?min=2&head=old&max=9")
             [("head_id", JStr "abc")]).
    + reflexivity.
    + discriminate.
Defined.

(** C9. For a request whose query is [address=000000] and [head=abc], in
    either order, and a reply whose head id is the requested [abc], the
    metadata has [head: abc] and its link is the scheme, host and path of
    the request followed by [?head=abc&address=000000]. *)
Theorem get_metadata_address_head `{Environment} (request : Request) (response : dict) :
  query request = [("address", "000000"); ("head", "abc")]
  \/ query request = [("head", "abc"); ("address", "000000")] ->
  dict_get "head_id" response = Some (JStr "abc") ->
  _get_metadata request response =
    [("head", JStr "abc");
     ("link", JStr (scheme request +++ "://" +++ host request +++ path request
                      +++ "?head=abc&address=000000"))].
Proof.
  intros Hquery Hhead.
  rewrite (get_metadata_link request response (JStr "abc") Hhead eq_refl).
  destruct Hquery as [-> | ->]; reflexivity.
Qed.

Lemma get_metadata_address_head_example :
  @_get_metadata demo_environment
    (state_request [("address", "000000"); ("head", "abc")]
       "http://localhost:8080/state?address=000000&head=abc")
    [("status", JStr "OK"); ("head_id", JStr "abc"); ("leaves", JList [])]
  = [("head", JStr "abc");
     ("link", JStr "http://localhost:8080/state?head=abc&address=000000")].
Proof.
  apply (@get_metadata_address_head demo_environment
           (state_request [("address", "000000"); ("head", "abc")]
              "http://localhost:8080/state?address=000000&head=abc")).
  - left. reflexivity.
  - reflexivity.
Defined.

(** ** Dicts *)

Lemma dict_get_set_eq {V} (k : string) (v : V) (d : list (string * V)) :
  dict_get k (dict_set k v d) = Some v.
Proof.
  induction d as [| [k' v'] d IH]; simpl.
  - now rewrite String.eqb_refl.
  - destruct (k' =? k)%string eqn:E; simpl.
    + now rewrite String.eqb_refl.
    + now rewrite E.
Qed.

Lemma dict_get_set_ne {V} (k k' : string) (v : V) (d : list (string * V)) :
  k <> k' -> dict_get k' (dict_set k v d) = dict_get k' d.
Proof.
  intros Hne. induction d as [| [k0 v0] d IH]; simpl.
  - apply String.eqb_neq in Hne. now rewrite Hne.
  - destruct (k0 =? k)%string eqn:E; simpl.
    + apply String.eqb_eq in E. subst k0.
      apply String.eqb_neq in Hne. now rewrite Hne.
    + now rewrite IH.
Qed.



(** ** Sorted keys *)









(** ** The envelope *)













(** ** Request validation *)

Lemma bind_value_inv {A B} (c : M A) (k : A -> M B) (b : B) :
  value (bind c k) = Ok b -> exists a, value c = Ok a /\ value (k a) = Ok b.
Proof.
  destruct c as [[a | e] t]; simpl.
  - destruct (k a) as [r t'] eqn:E. simpl. intros ->. exists a. now rewrite E.
  - discriminate.
Qed.

(** Once the batch list is parsed, [submit_batches] returns no error
    response: it answers with an envelope or raises. *)
Lemma submit_batches_after_parse `{Environment} self request batch_list r :
  value
    (validator_query <-
       _set_wait self request
         {| batches := batch_list; submit_wait_for_commit := false; submit_timeout := 0 |} ;;
     response <-
       _query_validator self CLIENT_BATCH_SUBMIT_REQUEST
         ClientBatchSubmitResponse_proto (inl validator_query) (Some [InvalidBatch]) ;;
     statuses <- getitem "batch_statuses" (JDict response) ;;
     let data := py_or statuses JNone in
     let link :=
       scheme request +++ "://" +++ host request +++ "/batch_status?id="
         +++ join "," (map header_signature batch_list) in
     match data with
     | JNone => ret (Response (_wrap_response data (Some [("link", JStr link)]) 202))
     | _ =>
         entries <- items data ;;
         if existsb (fun kv => negb (is_text "COMMITTED" (snd kv))) entries
         then ret (Response (_wrap_response data (Some [("link", JStr link)]) 200))
         else
           let link := replace "batch_status" "batches" link in
           ret (Response (_wrap_response JNone (Some [("link", JStr link)]) 201))
     end) = Ok r ->
  is_response r.
Proof.
  intros V.
  apply bind_value_inv in V as (q & _ & V).
  apply bind_value_inv in V as (response & _ & V).
  apply bind_value_inv in V as (statuses & _ & V).
  cbv zeta in V.
  destruct (py_or statuses JNone) eqn:D;
    try (apply bind_value_inv in V as (entries & _ & V);
         destruct (existsb _ entries));
    simpl in V; inversion V; exact I.
Qed.

Lemma submit_batches_wrong_body_type `{Environment} self request :
  value (submit_batches self request) = Ok (ErrorResponse WrongBodyType)
  <-> exists v, header_get "Content-Type" (headers request) = Some v
                /\ v <> "application/octet-stream".
Proof.
  unfold submit_batches.
  destruct (header_get "Content-Type" (headers request)) as [v |] eqn:Hh;
    cbn [lift].
  - rewrite bind_ret.
    destruct (String.eqb_spec v "application/octet-stream") as [E | N]; cbn [negb].
    + split.
      * intros V. exfalso.
        destruct (body request); [discriminate |].
        destruct (BatchList_ParseFromString _); [| discriminate].
        apply submit_batches_after_parse in V. exact V.
      * intros (v' & E' & N'). congruence.
    + split; [intros _; now exists v | reflexivity].
  - split; [discriminate | intros (v & E & _); discriminate].
Qed.

Lemma parse_batch_ids_post `{Environment} request :
  method request = "POST" ->
  parse_batch_ids request =
    match header_get "Content-Type" (headers request) with
    | None => raise (KeyError "Content-Type")
    | Some v =>
        if (v =? "application/json")%string then
          match json_loads (body request) with
          | None => raise JSONDecodeError
          | Some (JList []) => ret (inl MissingStatusId)
          | Some (JList (JStr s :: rest)) => ret (inr (JList (JStr s :: rest)))
          | Some _ => ret (inl BadStatusBody)
          end
        else ret (inl BadStatusBody)
    end.
Proof.
  intros Hm. unfold parse_batch_ids. rewrite Hm. cbn [String.eqb Ascii.eqb Bool.eqb].
  simpl (("POST" =? "POST")%string).
  destruct (header_get "Content-Type" (headers request)) as [v |]; cbn [lift];
    [rewrite bind_ret | reflexivity].
  destruct (v =? "application/json")%string; cbn [negb]; [| reflexivity].
  destruct (json_loads (body request)) as [ids |]; cbn [lift];
    [rewrite bind_ret | reflexivity].
  destruct ids as [| | | | [| [] ?] |]; reflexivity.
Qed.

Lemma list_statuses_after_parse `{Environment} self request (ids : json) r :
  value
    (validator_query <- new_ClientBatchStatusRequest ids ;;
     validator_query <- _set_wait self request validator_query ;;
     response <-
       _query_validator self CLIENT_BATCH_STATUS_REQUEST
         ClientBatchStatusResponse_proto (inl validator_query)
         (Some [StatusesNotReturned]) ;;
     let metadata :=
       if negb (method request =? "POST")%string
       then Some (_get_metadata request response)
       else None in
     let data :=
       match dict_get "batch_statuses" response with
       | Some v => v
       | None => JNone
       end in
     ret (Response (_wrap_response data metadata 200))) = Ok r ->
  is_response r.
Proof.
  intros V.
  apply bind_value_inv in V as (q & _ & V).
  apply bind_value_inv in V as (q' & _ & V).
  apply bind_value_inv in V as (response & _ & V).
  simpl in V. inversion V. exact I.
Qed.

Lemma list_statuses_error `{Environment} self request e :
  value (list_statuses self request) = Ok (ErrorResponse e) ->
  value (parse_batch_ids request) = Ok (inl e).
Proof.
  unfold list_statuses. intros V.
  apply bind_value_inv in V as ([e' | ids] & P & V).
  - simpl in V. now inversion V; subst.
  - apply list_statuses_after_parse in V. contradiction.
Qed.

(** C10. A request without a Content-Type header makes [submit_batches],
    and [list_statuses] on a POST, raise [KeyError] where they index the
    headers; neither returns its 400-class error then.  [WrongBodyType] is
    returned exactly when the header is there with another value, and so is
    the [BadStatusBody] of the content-type test. *)
Theorem content_type_missing_raises `{Environment}
    (self : RouteHandler) (request : Request) :
  let content_type := header_get "Content-Type" (headers request) in
  (content_type = None ->
   submit_batches self request = raise (KeyError "Content-Type")
   /\ (method request = "POST" ->
       list_statuses self request = raise (KeyError "Content-Type")))
  /\ (value (submit_batches self request) = Ok (ErrorResponse WrongBodyType)
      <-> exists v, content_type = Some v /\ v <> "application/octet-stream")
  /\ (method request = "POST" ->
      (forall v, content_type = Some v -> v <> "application/json" ->
         list_statuses self request = ret (ErrorResponse BadStatusBody))
      /\ (value (list_statuses self request) = Ok (ErrorResponse BadStatusBody) ->
          exists v, content_type = Some v
                    /\ (v <> "application/json"
                        \/ exists ids, json_loads (body request) = Some ids
                                       /\ ~ well_formed_ids ids))).
Proof.
  intros content_type. subst content_type. split; [| split].
  - intros Hnone. split.
    + unfold submit_batches. now rewrite Hnone.
    + intros Hpost. unfold list_statuses.
      rewrite (parse_batch_ids_post _ Hpost), Hnone. reflexivity.
  - apply submit_batches_wrong_body_type.
  - intros Hpost. split.
    + intros v Hv Hne. unfold list_statuses.
      rewrite (parse_batch_ids_post _ Hpost), Hv.
      apply String.eqb_neq in Hne. rewrite Hne. reflexivity.
    + intros V. apply list_statuses_error in V.
      rewrite (parse_batch_ids_post _ Hpost) in V.
      destruct (header_get "Content-Type" (headers request)) as [v |];
        [| discriminate].
      exists v. split; [reflexivity |].
      destruct (String.eqb_spec v "application/json") as [E | N]; [right | now left].
      destruct (json_loads (body request)) as [ids |]; [| discriminate].
      exists ids. split; [reflexivity |].
      intros (first & rest & ->). discriminate.
Qed.

Lemma content_type_missing_raises_example :
  @submit_batches demo_environment demo_handler (bare_request "POST" "/batches" "aaa")
  = raise (KeyError "Content-Type")
  /\ @list_statuses demo_environment demo_handler
       (bare_request "POST" "/batch_status" body_one_id)
     = raise (KeyError "Content-Type")
  /\ @list_statuses demo_environment demo_handler
       (demo_request "POST" [("content-type", "text/plain")] "localhost:8080"
          "/batch_status" [] "http://localhost:8080/batch_status" body_one_id)
     = ret (ErrorResponse BadStatusBody).
Proof.
  split; [| split].
  - destruct (@content_type_missing_raises demo_environment demo_handler
                (bare_request "POST" "/batches" "aaa")) as (Hnone & _).
    destruct (Hnone eq_refl) as [Hsubmit _]. exact Hsubmit.
  - destruct (@content_type_missing_raises demo_environment demo_handler
                (bare_request "POST" "/batch_status" body_one_id)) as (Hnone & _).
    destruct (Hnone eq_refl) as [_ Hlist]. exact (Hlist eq_refl).
  - destruct (@content_type_missing_raises demo_environment demo_handler
                (demo_request "POST" [("content-type", "text/plain")] "localhost:8080"
                   "/batch_status" [] "http://localhost:8080/batch_status" body_one_id))
      as (_ & _ & Hpost).
    destruct (Hpost eq_refl) as [Hother _].
    apply (Hother "text/plain"); [reflexivity | discriminate].
Defined.

Lemma mapM_as_text (l : list json) : mapM as_text l = lift TypeError (texts_of l).
Proof.
  induction l as [| v l IH]; [reflexivity |].
  destruct v; try reflexivity.
  cbn [mapM as_text texts_of]. rewrite bind_ret, IH.
  destruct (texts_of l); reflexivity.
Qed.

(** C8, at the failing input. A POST whose body is a JSON array with a
    string first and something else later passes the checks of
    [list_statuses], which look at the first element only: no client
    error is returned, and building the validator query raises
    [TypeError]. *)
Theorem list_statuses_checks_first_id_only `{Environment}
    (self : RouteHandler) (request : Request) (first : string) (rest : list json) :
  method request = "POST" ->
  header_get "Content-Type" (headers request) = Some "application/json" ->
  json_loads (body request) = Some (JList (JStr first :: rest)) ->
  texts_of rest = None ->
  parse_batch_ids request = ret (inr (JList (JStr first :: rest)))
  /\ list_statuses self request = raise TypeError.
Proof.
  intros Hpost Hct Hbody Hrest.
  assert (P : parse_batch_ids request = ret (inr (JList (JStr first :: rest)))).
  { rewrite (parse_batch_ids_post _ Hpost), Hct, Hbody. reflexivity. }
  split; [exact P |].
  unfold list_statuses. rewrite P, bind_ret.
  unfold new_ClientBatchStatusRequest. cbn [iterate]. rewrite bind_ret.
  rewrite mapM_as_text. cbn [texts_of]. rewrite Hrest. reflexivity.
Qed.

Lemma list_statuses_checks_first_id_only_example :
  parse_batch_ids (H := demo_environment) (post_status_request body_mixed)
  = ret (inr (JList [JStr "aaa"; JInt 1]))
  /\ @list_statuses demo_environment demo_handler (post_status_request body_mixed)
     = raise TypeError.
Proof.
  apply (@list_statuses_checks_first_id_only demo_environment demo_handler
           (post_status_request body_mixed) "aaa" [JInt 1]); reflexivity.
Defined.

(** The GET half of the same handler: the ids are the [id] parameter
    split on commas, and only its absence is an error. *)
Lemma parse_batch_ids_get `{Environment} (request : Request) :
  method request <> "POST" ->
  parse_batch_ids request =
    match dict_get "id" (query request) with
    | Some text => ret (inr (JList (map JStr (split "," text))))
    | None => ret (inl MissingStatusId)
    end.
Proof.
  intros Hget. unfold parse_batch_ids.
  apply String.eqb_neq in Hget. now rewrite Hget.
Qed.

(** ** Replacing text *)

(** A character that [old] does not have ends every match of [old]. *)
Lemma prefix_before_separator (old a b : string) (c : ascii) :
  mentions c old = false ->
  String.prefix old (a +++ String c b) = String.prefix old a.
Proof.
  revert a. induction old as [| x old IH]; intros a Hc.
  - destruct a; reflexivity.
  - simpl in Hc. apply orb_false_iff in Hc as [Hx Hold].
    destruct a as [| y a]; simpl.
    + destruct (ascii_dec x c) as [E | _]; [| reflexivity].
      subst. now rewrite Ascii.eqb_refl in Hx.
    + destruct (ascii_dec x y); [now apply IH | reflexivity].
Qed.

Lemma replace_from_absent_before (x : ascii) (old new a b : string) (c : ascii) :
  mentions c (String x old) = false ->
  occurs (String x old) a = false ->
  replace_from (String x old) new O (a +++ String c b)
  = a +++ String c (replace_from (String x old) new O b).
Proof.
  intros Hc. induction a as [| y a IH]; intros Ha.
  - assert (P : String.prefix (String x old) (String c b) = false)
      by apply (prefix_before_separator (String x old) "" b c Hc).
    change ("" +++ String c b) with (String c b).
    cbn [replace_from]. now rewrite P.
  - cbn [occurs] in Ha. apply orb_false_iff in Ha as [Hp Ha].
    change (String y a +++ String c b) with (String y (a +++ String c b)).
    cbn [replace_from].
    change (String y (a +++ String c b)) with (String y a +++ String c b) at 1.
    rewrite (prefix_before_separator _ _ _ _ Hc), Hp.
    now rewrite (IH Ha).
Qed.

Lemma replace_from_absent (x : ascii) (old new a : string) :
  occurs (String x old) a = false ->
  replace_from (String x old) new O a = a.
Proof.
  induction a as [| y a IH]; intros Ha; [reflexivity |].
  cbn [occurs] in Ha. apply orb_false_iff in Ha as [Hp Ha].
  cbn [replace_from]. rewrite Hp. now rewrite (IH Ha).
Qed.

Lemma replace_from_join (x : ascii) (old new : string) (sep : ascii) (parts : list string) :
  mentions sep (String x old) = false ->
  forallb (fun part => negb (occurs (String x old) part)) parts = true ->
  replace_from (String x old) new O (join (String sep "") parts)
  = join (String sep "") parts.
Proof.
  intros Hsep. induction parts as [| part parts IH]; intros Hparts; [reflexivity |].
  cbn [forallb] in Hparts. apply andb_true_iff in Hparts as [Hpart Hrest].
  apply negb_true_iff in Hpart.
  destruct parts as [| part' parts].
  - simpl. now apply replace_from_absent.
  - unfold join in *. cbn [concat] in *.
    change (String sep "" +++ ?s) with (String sep s).
    rewrite (replace_from_absent_before _ _ _ _ _ _ Hsep Hpart).
    now rewrite (IH Hrest).
Qed.

Lemma prefix_append (a rest : string) : String.prefix a (a +++ rest) = true.
Proof.
  induction a as [| y a IH]; simpl; [now destruct rest |].
  destruct (ascii_dec y y); [exact IH | congruence].
Qed.

Lemma replace_from_skip (old new a rest : string) :
  replace_from old new (String.length a) (a +++ rest) = replace_from old new O rest.
Proof.
  induction a as [| y a IH]; [reflexivity | exact IH].
Qed.

Lemma replace_from_match (x : ascii) (old new rest : string) :
  replace_from (String x old) new O (String x old +++ rest)
  = new +++ replace_from (String x old) new O rest.
Proof.
  change (String x old +++ rest) with (String x (old +++ rest)).
  cbn [replace_from].
  change (String x (old +++ rest)) with (String x old +++ rest).
  rewrite prefix_append. cbn [String.length Nat.pred].
  now rewrite replace_from_skip.
Qed.

Lemma replace_from_separator (x : ascii) (old new b : string) (c : ascii) :
  mentions c (String x old) = false ->
  replace_from (String x old) new O (String c b)
  = String c (replace_from (String x old) new O b).
Proof.
  intros Hc.
  apply (replace_from_absent_before x old new "" b c Hc eq_refl).
Qed.

(** When [batch_status] occurs in the link as the path segment only, the
    replacement turns exactly that segment into [batches]. *)
Lemma replace_status_segment (scheme host : string) (ids : list string) :
  occurs "batch_status" scheme = false ->
  occurs "batch_status" host = false ->
  forallb (fun id => negb (occurs "batch_status" id)) ids = true ->
  replace "batch_status" "batches"
    (scheme +++ "://" +++ host +++ "/batch_status?id=" +++ join "," ids)
  = scheme +++ "://" +++ host +++ "/batches?id=" +++ join "," ids.
Proof.
  intros Hscheme Hhost Hids.
  change (replace "batch_status" "batches" ?s)
    with (replace_from "batch_status" "batches" O s).
  change ("://" +++ ?s) with (String ":" (String "/" (String "/" s))).
  change ("/batch_status?id=" +++ ?s)
    with (String "/" ("batch_status" +++ String "?" ("id" +++ String "=" s))).
  change ("/batches?id=" +++ ?s)
    with (String "/" ("batches" +++ String "?" ("id" +++ String "=" s))).
  rewrite (replace_from_absent_before "b" "atch_status" "batches" scheme _
             ":"%char eq_refl Hscheme).
  rewrite !(replace_from_separator "b" "atch_status" "batches" _ "/"%char eq_refl).
  rewrite (replace_from_absent_before "b" "atch_status" "batches" host _
             "/"%char eq_refl Hhost).
  rewrite (replace_from_match "b" "atch_status" "batches").
  rewrite (replace_from_separator "b" "atch_status" "batches" _ "?"%char eq_refl).
  rewrite (replace_from_absent_before "b" "atch_status" "batches" "id" _
             "="%char eq_refl eq_refl).
  now rewrite (replace_from_join "b" "atch_status" "batches" ","%char ids eq_refl Hids).
Qed.

(** *** More than one occurrence *)

Lemma length_append (a b : string) :
  String.length (a +++ b) = (String.length a + String.length b)%nat.
Proof.
  induction a as [| x a IH]; simpl; [reflexivity | now rewrite IH].
Qed.

Lemma prefix_split (a s : string) :
  String.prefix a s = true -> exists t, s = a +++ t.
Proof.
  revert s. induction a as [| x a IH]; intros s P.
  - now exists s.
  - destruct s as [| y s]; [discriminate |]. simpl in P.
    destruct (ascii_dec x y) as [-> |]; [| discriminate].
    destruct (IH s P) as (t & ->). now exists t.
Qed.

Lemma occurs_split (old s : string) :
  occurs old s = true -> exists u v, s = u +++ old +++ v.
Proof.
  induction s as [| c s IH]; cbn [occurs]; intros O.
  - rewrite orb_false_r in O. apply prefix_split in O as (t & ->). now exists "", t.
  - apply orb_true_iff in O as [P | O].
    + apply prefix_split in P as (t & ->). now exists "", t.
    + destruct (IH O) as (u & v & ->). now exists (String c u), v.
Qed.

Lemma occurs_append_r (old a b : string) :
  occurs old b = true -> occurs old (a +++ b) = true.
Proof.
  intros O. induction a as [| x a IH]; [exact O |].
  simpl. rewrite IH. apply orb_true_r.
Qed.

Lemma occurs_here (old v : string) : occurs old (old +++ v) = true.
Proof.
  destruct (old +++ v) as [| c s] eqn:E; cbn [occurs]; rewrite <- E;
    now rewrite prefix_append.
Qed.

Lemma occurs_append_l (old a b : string) :
  occurs old a = true -> occurs old (a +++ b) = true.
Proof.
  intros O. apply occurs_split in O as (u & v & ->).
  rewrite !append_assoc. apply occurs_append_r, occurs_here.
Qed.

Lemma occurs_join (old sep : string) (parts : list string) :
  existsb (occurs old) parts = true -> occurs old (join sep parts) = true.
Proof.
  unfold join. induction parts as [| part parts IH]; [discriminate |].
  cbn [existsb]. intros O. apply orb_true_iff in O as [O | O].
  - destruct parts as [| next parts]; [exact O |].
    cbn [concat]. now apply occurs_append_l.
  - specialize (IH O). destruct parts as [| next parts]; [discriminate |].
    cbn [concat] in *. now apply occurs_append_r, occurs_append_r.
Qed.

(** Where two texts with a common end split. *)
Lemma append_suffix (a b t v : string) :
  a +++ t = b +++ v -> (String.length a <= String.length b)%nat ->
  exists w, t = w +++ v.
Proof.
  revert b. induction a as [| x a IH]; intros b E L.
  - now exists b.
  - destruct b as [| y b]; [simpl in L; lia |].
    simpl in E, L. inversion E; subst. apply (IH b); [assumption | lia].
Qed.

Lemma prefix_length (a s : string) :
  String.prefix a s = true -> (String.length a <= String.length s)%nat.
Proof.
  intros P. apply prefix_split in P as (t & ->). rewrite length_append. lia.
Qed.

Lemma replace_from_found (old new rest : string) :
  old <> "" ->
  replace_from old new O (old +++ rest) = new +++ replace_from old new O rest.
Proof.
  destruct old as [| x tail]; [congruence |]. intros _. apply replace_from_match.
Qed.

(** A replacement by a text that is not longer never makes the text
    longer. *)
Lemma replace_from_length (old new s : string) (skip : nat) :
  (0 < String.length old)%nat ->
  (String.length new <= String.length old)%nat ->
  (skip <= String.length s)%nat ->
  (String.length (replace_from old new skip s) + skip <= String.length s)%nat.
Proof.
  intros Hold Hnew. revert skip. induction s as [| c s IH]; intros skip L.
  - simpl in *. lia.
  - destruct skip as [| k].
    + cbn [replace_from].
      destruct (String.prefix old (String c s)) eqn:P.
      * apply prefix_length in P. cbn [String.length] in P.
        rewrite length_append.
        assert (K : (Nat.pred (String.length old) <= String.length s)%nat) by lia.
        specialize (IH _ K). cbn [String.length]. lia.
      * specialize (IH O ltac:(lia)). cbn [String.length]. lia.
    + cbn [replace_from String.length] in *. specialize (IH k ltac:(lia)). lia.
Qed.

(** One occurrence makes it shorter by the difference of the lengths. *)
Lemma replace_from_once (old new s : string) :
  (0 < String.length old)%nat ->
  (String.length new <= String.length old)%nat ->
  occurs old s = true ->
  (String.length (replace_from old new O s) + String.length old
   <= String.length s + String.length new)%nat.
Proof.
  intros Hold Hnew. induction s as [| c s IH]; intros O.
  - destruct old; [simpl in Hold; lia | discriminate].
  - cbn [occurs] in O. cbn [replace_from].
    destruct (String.prefix old (String c s)) eqn:P.
    + apply prefix_length in P. cbn [String.length] in P.
      rewrite length_append.
      assert (K : (Nat.pred (String.length old) <= String.length s)%nat) by lia.
      pose proof (replace_from_length old new s _ Hold Hnew K) as R.
      cbn [String.length]. lia.
    + cbn [orb] in O. specialize (IH O). cbn [String.length]. lia.
Qed.

(** Two occurrences, one after the other, make it shorter by twice that. *)
Lemma replace_from_twice (old new u v : string) :
  (0 < String.length old)%nat ->
  (String.length new <= String.length old)%nat ->
  occurs old v = true ->
  (String.length (replace_from old new O (u +++ old +++ v)) + 2 * String.length old
   <= String.length (u +++ old +++ v) + 2 * String.length new)%nat.
Proof.
  intros Hold Hnew O.
  assert (Hne : old <> "") by (destruct old; [simpl in Hold; lia | discriminate]).
  induction u as [| c u IH].
  - change ("" +++ old +++ v) with (old +++ v).
    rewrite (replace_from_found _ _ _ Hne), !length_append.
    pose proof (replace_from_once old new v Hold Hnew O) as R. lia.
  - destruct (String.prefix old (String c u +++ old +++ v)) eqn:P.
    + destruct (prefix_split _ _ P) as (t & E).
      assert (L : (String.length old <= String.length (String c u +++ old))%nat)
        by (rewrite length_append; lia).
      assert (E' : old +++ t = (String c u +++ old) +++ v)
        by (rewrite append_assoc; congruence).
      destruct (append_suffix _ _ _ _ E' L) as (w & ->).
      rewrite E, (replace_from_found _ _ _ Hne), !length_append.
      pose proof (replace_from_once old new (w +++ v) Hold Hnew
                    (occurs_append_r _ w v O)) as R.
      rewrite length_append in R. lia.
    + change (String c u +++ old +++ v) with (String c (u +++ old +++ v)) in *.
      cbn [replace_from]. rewrite P. cbn [String.length]. lia.
Qed.

(** An occurrence before or after the one that was meant: the text is not
    the one with that single occurrence replaced. *)
Lemma replace_elsewhere (old new p q : string) :
  (String.length new < String.length old)%nat ->
  occurs old p = true \/ occurs old q = true ->
  replace_from old new O (p +++ old +++ q) <> p +++ new +++ q.
Proof.
  intros Strict Elsewhere E.
  assert (L : (String.length (replace_from old new O (p +++ old +++ q))
               + 2 * String.length old
               <= String.length (p +++ old +++ q) + 2 * String.length new)%nat).
  { destruct Elsewhere as [Op | Oq].
    - apply occurs_split in Op as (u & v & ->).
      rewrite !append_assoc. apply replace_from_twice; [lia | lia |].
      apply occurs_append_r, occurs_here.
    - apply replace_from_twice; [lia | lia | exact Oq]. }
  rewrite E, !length_append in L. lia.
Qed.

(** When [batch_status] occurs in the scheme, in the host or in an id, the
    replacement does not give the [batches] resource of that host and of
    those ids. *)
Lemma replace_status_elsewhere (scheme host : string) (ids : list string) :
  occurs "batch_status" scheme = true \/ occurs "batch_status" host = true
  \/ existsb (occurs "batch_status") ids = true ->
  replace "batch_status" "batches"
    (scheme +++ "://" +++ host +++ "/batch_status?id=" +++ join "," ids)
  <> scheme +++ "://" +++ host +++ "/batches?id=" +++ join "," ids.
Proof.
  intros Elsewhere.
  change (replace "batch_status" "batches" ?s)
    with (replace_from "batch_status" "batches" O s).
  assert (A : forall middle rest,
            scheme +++ "://" +++ host +++ String "/" (middle +++ rest)
            = (scheme +++ "://" +++ host +++ "/") +++ middle +++ rest).
  { intros middle rest. rewrite !append_assoc. reflexivity. }
  change ("/batch_status?id=" +++ ?s)
    with (String "/" ("batch_status" +++ "?id=" +++ s)).
  change ("/batches?id=" +++ ?s) with (String "/" ("batches" +++ "?id=" +++ s)).
  rewrite !A.
  apply replace_elsewhere; [simpl; lia |].
  destruct Elsewhere as [S | [Hh | I]].
  - left. now apply occurs_append_l.
  - left. apply occurs_append_r, occurs_append_r, occurs_append_l. exact Hh.
  - right. apply occurs_append_r. now apply occurs_join.
Qed.

Lemma forallb_absent (old : string) (ids : list string) :
  forallb (fun id => negb (occurs old id)) ids = negb (existsb (occurs old) ids).
Proof.
  induction ids as [| id ids IH]; [reflexivity |].
  simpl. rewrite IH. now destruct (occurs old id).
Qed.

(** ** Submitting batches *)

Lemma existsb_statuses (m : list (string * string)) :
  existsb (fun kv => negb (is_text "COMMITTED" (snd kv)))
    (map (fun kv => (fst kv, JStr (snd kv))) m)
  = existsb uncommitted m.
Proof.
  induction m as [| kv m IH]; [reflexivity |].
  simpl. now rewrite IH.
Qed.

Lemma all_committed (m : list (string * string)) :
  forallb (fun kv => (snd kv =? "COMMITTED")%string) m = true ->
  existsb uncommitted m = false.
Proof.
  induction m as [| kv m IH]; [reflexivity |].
  simpl. intros Hall. apply andb_true_iff in Hall as [Hkv Hm].
  unfold uncommitted at 1. rewrite Hkv. simpl. now apply IH.
Qed.

(** [submit_batches] from the reply on, for a request that passed the
    checks and a query that was answered. *)
Lemma submit_batches_answered `{Environment} self request batch_list validator_query reply :
  header_get "Content-Type" (headers request) = Some "application/octet-stream" ->
  body request <> [] ->
  BatchList_ParseFromString (body request) = Some batch_list ->
  value (_set_wait self request
           {| batches := batch_list; submit_wait_for_commit := false;
              submit_timeout := 0 |}) = Ok validator_query ->
  value (_query_validator self CLIENT_BATCH_SUBMIT_REQUEST
           ClientBatchSubmitResponse_proto (inl validator_query)
           (Some [InvalidBatch]))
    = Ok (message_to_dict ClientBatchSubmitResponse_proto reply) ->
  value (submit_batches self request) =
    let statuses := submit_batch_statuses reply in
    let link := status_link request batch_list in
    match statuses with
    | [] => Ok (Response (envelope_response 202 [("link", JStr link)]))
    | _ =>
        if existsb uncommitted statuses
        then Ok (Response (envelope_response 200
                   [("link", JStr link); ("data", statuses_dict statuses)]))
        else Ok (Response (envelope_response 201
                   [("link", JStr (replace "batch_status" "batches" link))]))
    end.
Proof.
  intros Hct Hbody Hparse Hwait Hquery.
  unfold submit_batches. rewrite Hct. cbn [lift]. rewrite bind_ret.
  simpl (negb _).
  destruct (body request) as [| b0 payload] eqn:Hpayload; [congruence |].
  rewrite Hparse. cbv zeta.
  rewrite (bind_ok _ _ _ Hwait). cbn [value fst].
  rewrite (bind_ok _ _ _ Hquery). cbn [value fst].
  cbn [message_to_dict MessageToDict proto ClientBatchSubmitResponse_proto
       getitem dict_get lift].
  simpl (("status" =? "batch_statuses")%string).
  simpl (("batch_statuses" =? "batch_statuses")%string).
  cbv iota. cbn [lift]. rewrite bind_ret.
  fold (status_link request batch_list).
  destruct (submit_batch_statuses reply) as [| entry statuses] eqn:Hst.
  - reflexivity.
  - unfold py_or, statuses_dict. cbn [truthy map]. cbv iota.
    cbn [items]. rewrite bind_ret.
    change ((fst entry, JStr (snd entry))
              :: map (fun kv => (fst kv, JStr (snd kv))) statuses)
      with (map (fun kv : string * string => (fst kv, JStr (snd kv)))
              (entry :: statuses)).
    rewrite existsb_statuses.
    destruct (existsb uncommitted (entry :: statuses)); reflexivity.
Qed.

(** C1. For a call of [submit_batches] that passes the checks on its
    input and whose query the validator answers: with no batch statuses
    in the reply the status is 202 and the link is the [batch_status]
    resource of the submitted batch ids, in input order; with a status
    that is not [COMMITTED] the status is 200 and the data is the status
    map of the reply; with statuses that are all [COMMITTED] the status is
    201, there is no data, and the link is the 202 link with every
    occurrence of [batch_status] replaced by [batches].  That is the 202
    link with its path segment replaced, the [batches] resource of the
    same host and ids, exactly when [batch_status] occurs neither in the
    scheme, nor in the host, nor in a batch id; otherwise the host or the
    ids of the link are rewritten as well. *)
Theorem submit_batches_status `{Environment}
    (self : RouteHandler) (request : Request) (batch_list : list Batch)
    (validator_query : ClientBatchSubmitRequest) (reply : ClientBatchSubmitResponse) :
  header_get "Content-Type" (headers request) = Some "application/octet-stream" ->
  body request <> [] ->
  BatchList_ParseFromString (body request) = Some batch_list ->
  value (_set_wait self request
           {| batches := batch_list; submit_wait_for_commit := false;
              submit_timeout := 0 |}) = Ok validator_query ->
  value (_query_validator self CLIENT_BATCH_SUBMIT_REQUEST
           ClientBatchSubmitResponse_proto (inl validator_query)
           (Some [InvalidBatch]))
    = Ok (message_to_dict ClientBatchSubmitResponse_proto reply) ->
  let statuses := submit_batch_statuses reply in
  let ids := map header_signature batch_list in
  let link := scheme request +++ "://" +++ host request +++ "/batch_status?id="
                +++ join "," ids in
  let answer := value (submit_batches self request) in
  (statuses = [] ->
   answer = Ok (Response (envelope_response 202 [("link", JStr link)])))
  /\ (existsb uncommitted statuses = true ->
      answer = Ok (Response (envelope_response 200
                     [("link", JStr link); ("data", statuses_dict statuses)])))
  /\ (statuses <> [] ->
      forallb (fun kv => (snd kv =? "COMMITTED")%string) statuses = true ->
      answer = Ok (Response (envelope_response 201
                     [("link", JStr (replace "batch_status" "batches" link))]))
      /\ (replace "batch_status" "batches" link
          = scheme request +++ "://" +++ host request +++ "/batches?id="
              +++ join "," ids
          <-> occurs "batch_status" (scheme request) = false
              /\ occurs "batch_status" (host request) = false
              /\ forallb (fun id => negb (occurs "batch_status" id)) ids = true)).
Proof.
  intros Hct Hbody Hparse Hwait Hquery statuses ids link answer.
  subst answer.
  rewrite (submit_batches_answered _ _ _ _ _ Hct Hbody Hparse Hwait Hquery).
  cbv zeta. fold statuses. unfold status_link. fold ids. fold link.
  split; [| split].
  - intros ->. reflexivity.
  - intros Hsome. destruct statuses as [| entry rest]; [discriminate |].
    now rewrite Hsome.
  - intros Hne Hall. split.
    + destruct statuses as [| entry rest]; [congruence |].
      now rewrite (all_committed _ Hall).
    + subst link. split.
      * intros E.
        pose proof (replace_status_elsewhere (scheme request) (host request) ids) as N.
        rewrite forallb_absent.
        destruct (occurs "batch_status" (scheme request));
          [exfalso; apply N; auto |].
        destruct (occurs "batch_status" (host request));
          [exfalso; apply N; auto |].
        destruct (existsb (occurs "batch_status") ids);
          [exfalso; apply N; auto |].
        auto.
      * intros (Hscheme & Hhost & Hids). now apply replace_status_segment.
Qed.

Lemma submit_batches_status_example :
  value (@submit_batches demo_environment demo_handler
           (submit_request "localhost:8080" "na,bb"))
  = Ok (Response (envelope_response 202
          [("link", JStr "http://localhost:8080/batch_status?id=na,bb")]))
  /\ value (@submit_batches demo_environment demo_handler
              (submit_request "localhost:8080" "aa,pb"))
     = Ok (Response (envelope_response 200
             [("link", JStr "http://localhost:8080/batch_status?id=aa,pb");
              ("data", JDict [("aa", JStr "COMMITTED"); ("pb", JStr "PENDING")])]))
  /\ value (@submit_batches demo_environment demo_handler
              (submit_request "localhost:8080" "aa,bb"))
     = Ok (Response (envelope_response 201
             [("link", JStr "http://localhost:8080/batches?id=aa,bb")]))
  /\ value (@submit_batches demo_environment demo_handler
              (submit_request "batch_status.example" "aa,bb"))
     = Ok (Response (envelope_response 201
             [("link", JStr "http://batches.example/batches?id=aa,bb")]))
  /\ replace "batch_status" "batches"
       "http://batch_status.example/batch_status?id=aa,bb"
     <> "http://batch_status.example/batches?id=aa,bb".
Proof.
  assert (Hbody : forall host text, text <> "" ->
            body (submit_request host text) <> [])
    by (intros host [| c text] Hne; [congruence | discriminate]).
  pose proof (@submit_batches_status demo_environment demo_handler
                (submit_request "batch_status.example" "aa,bb")
                (map demo_batch ["aa"; "bb"]) (submitted ["aa"; "bb"] true 30)
                {| submit_status := 0;
                   submit_batch_statuses := [("aa", "COMMITTED"); ("bb", "COMMITTED")] |}
                eq_refl (Hbody _ "aa,bb" ltac:(discriminate)) eq_refl eq_refl eq_refl)
    as (_ & _ & Hhost).
  destruct Hhost as [Hrewritten Hsegment]; [discriminate | reflexivity |].
  split; [| split; [| split; [| split]]].
  - destruct (@submit_batches_status demo_environment demo_handler
                (submit_request "localhost:8080" "na,bb")
                (map demo_batch ["na"; "bb"]) (submitted ["na"; "bb"] true 30)
                {| submit_status := 0; submit_batch_statuses := [] |}
                eq_refl (Hbody _ "na,bb" ltac:(discriminate)) eq_refl eq_refl eq_refl)
      as (H202 & _ & _).
    apply H202. reflexivity.
  - destruct (@submit_batches_status demo_environment demo_handler
                (submit_request "localhost:8080" "aa,pb")
                (map demo_batch ["aa"; "pb"]) (submitted ["aa"; "pb"] true 30)
                {| submit_status := 0;
                   submit_batch_statuses := [("aa", "COMMITTED"); ("pb", "PENDING")] |}
                eq_refl (Hbody _ "aa,pb" ltac:(discriminate)) eq_refl eq_refl eq_refl)
      as (_ & H200 & _).
    apply H200. reflexivity.
  - destruct (@submit_batches_status demo_environment demo_handler
                (submit_request "localhost:8080" "aa,bb")
                (map demo_batch ["aa"; "bb"]) (submitted ["aa"; "bb"] true 30)
                {| submit_status := 0;
                   submit_batch_statuses := [("aa", "COMMITTED"); ("bb", "COMMITTED")] |}
                eq_refl (Hbody _ "aa,bb" ltac:(discriminate)) eq_refl eq_refl eq_refl)
      as (_ & _ & H201).
    destruct H201 as [Hanswer Hlink]; [discriminate | reflexivity |].
    rewrite Hanswer. apply f_equal, f_equal, f_equal.
    apply (f_equal (fun link => [("link", JStr link)])).
    apply Hlink. repeat split.
  - exact Hrewritten.
  - intros E. apply Hsegment in E. destruct E as (_ & E & _). discriminate E.
Defined.

(** ** Header expansion *)

Lemma bind_pair {A B} (a : A) (t : list event) (k : A -> M B) :
  bind (Ok a, t) k = (value (k a), t ++ trace (k a)).
Proof. unfold bind. now destruct (k a). Qed.

Lemma mapM_ok {A B} (f : A -> M B) (g : A -> B) (tr : A -> list event) (l : list A) :
  Forall (fun x => f x = (Ok (g x), tr x)) l ->
  mapM f l = (Ok (map g l), flat_map tr l).
Proof.
  induction 1 as [| x l Hx _ IH]; [reflexivity |].
  cbn [mapM map flat_map]. rewrite Hx, bind_pair, IH, bind_pair.
  simpl. now rewrite app_nil_r.
Qed.

Lemma parse_header_decodes `{Environment} (p : header_proto) (obj : json) :
  decodes p obj = true ->
  _parse_header p obj = (Ok (with_header p obj), [Decoded p (header_of obj)]).
Proof.
  unfold decodes, _parse_header, with_header, header_of.
  destruct obj as [| | | | | d]; try discriminate.
  cbn [getitem].
  destruct (dict_get "header" d) as [[| | | s | |] |]; try discriminate.
  cbn [lift]. rewrite bind_ret, bind_emit.
  destruct (b64decode s) as [raw |]; [| discriminate].
  cbn [lift]. rewrite bind_ret.
  destruct (ParseFromString (header_class p) raw) as [h |]; [| discriminate].
  intros _. cbn [lift]. rewrite bind_ret. reflexivity.
Qed.

Lemma with_header_expanded `{Environment} (p : header_proto) (obj : json) :
  decodes p obj = true -> header_expanded (with_header p obj) = true.
Proof.
  unfold decodes, with_header, header_expanded.
  destruct obj as [| | | | | d]; try discriminate.
  destruct (dict_get "header" d) as [[| | | s | |] |]; try discriminate.
  destruct (b64decode s) as [raw |]; [| discriminate].
  destruct (ParseFromString (header_class p) raw) as [h |]; [| discriminate].
  intros _. now rewrite dict_get_set_eq.
Qed.

Lemma with_header_get `{Environment} (p : header_proto) (d : dict) (key : string) :
  key <> "header" ->
  exists d', with_header p (JDict d) = JDict d' /\ dict_get key d' = dict_get key d.
Proof.
  intros Hkey. unfold with_header.
  destruct (dict_get "header" d) as [[| | | s | |] |]; try (now exists d).
  destruct (b64decode s) as [raw |]; [| now exists d].
  destruct (ParseFromString (header_class p) raw) as [h |]; [| now exists d].
  eexists. split; [reflexivity |].
  apply dict_get_set_ne. congruence.
Qed.

Lemma children_with_header `{Environment} (p : header_proto) (key : string) (obj : json) :
  key <> "header" -> children key (with_header p obj) = children key obj.
Proof.
  intros Hkey. destruct obj as [| | | | | d]; try reflexivity.
  destruct (with_header_get p d key Hkey) as (d' & -> & Hget).
  unfold children. now rewrite Hget.
Qed.

Lemma children_with_children (key : string) (f : json -> json) (obj : json) :
  children key (with_children key f obj) = map f (children key obj).
Proof.
  unfold with_children, children.
  destruct obj as [| | | | | d]; try reflexivity.
  destruct (dict_get key d) as [[| | | | l |] |] eqn:G; rewrite ?G; try reflexivity.
  now rewrite dict_get_set_eq.
Qed.

Lemma header_with_children (key : string) (f : json -> json) (obj : json) :
  key <> "header" ->
  header_expanded (with_children key f obj) = header_expanded obj.
Proof.
  intros Hkey. unfold with_children, header_expanded.
  destruct obj as [| | | | | d]; try reflexivity.
  destruct (dict_get key d) as [[| | | | l |] |]; try reflexivity.
  now rewrite dict_get_set_ne.
Qed.

(** The common shape of [_expand_batch] and [_expand_block]: decode the
    header of the record, then expand the records listed under [key]. *)
Lemma expand_record `{Environment} (p : header_proto) (key : string)
    (f : json -> M json) (g : json -> json) (tr : json -> list event) (obj : json) :
  key <> "header" ->
  decodes p obj = true ->
  lists_children key obj = true ->
  Forall (fun x => f x = (Ok (g x), tr x)) (children key obj) ->
  (record <- _parse_header p obj ;;
   present <- contains key record ;;
   if present : bool then
     listed <- getitem key record ;;
     xs <- iterate listed ;;
     expanded <- mapM f xs ;;
     setitem key (JList expanded) record
   else ret record)
  = (Ok (with_children key g (with_header p obj)),
     Decoded p (header_of obj) :: flat_map tr (children key obj)).
Proof.
  intros Hkey Hdec Hlist Hchildren.
  rewrite (parse_header_decodes _ _ Hdec), bind_pair.
  destruct obj as [| | | | | d]; try discriminate.
  destruct (with_header_get p d key Hkey) as (d' & -> & Hget).
  unfold lists_children in Hlist. unfold children in Hchildren |- *.
  unfold with_children, contains, dict_has, getitem. rewrite bind_ret, Hget.
  destruct (dict_get key d) as [[| | | | l |] |]; try discriminate.
  - cbn [lift]. rewrite bind_ret. cbn [iterate]. rewrite bind_ret.
    rewrite (mapM_ok _ _ _ _ Hchildren), bind_pair.
    cbn [setitem value trace ret fst snd]. now rewrite app_nil_r.
  - reflexivity.
Qed.

Lemma flat_map_singleton {A B} (f : A -> B) (l : list A) :
  flat_map (fun x => [f x]) l = map f l.
Proof.
  induction l as [| x l IH]; [reflexivity | simpl; now rewrite IH].
Qed.

Lemma expand_transaction_valid `{Environment} (t : json) :
  valid_transaction t = true ->
  _expand_transaction t
  = (Ok (with_header TransactionHeader t),
     [Decoded TransactionHeader (header_of t)]).
Proof. apply parse_header_decodes. Qed.

Lemma expand_batch_valid `{Environment} (b : json) :
  valid_batch b = true ->
  _expand_batch b = (Ok (expanded_batch b), batch_decodes b).
Proof.
  unfold valid_batch. intros V.
  apply andb_true_iff in V as [V Hts]. apply andb_true_iff in V as [Hdec Hlist].
  unfold _expand_batch, expanded_batch, batch_decodes.
  rewrite <- flat_map_singleton.
  apply expand_record; try assumption; [discriminate |].
  rewrite forallb_forall in Hts. apply Forall_forall. intros t Ht.
  now apply expand_transaction_valid, Hts.
Qed.

Lemma expand_block_valid `{Environment} (block : json) :
  valid_block block = true ->
  _expand_block block = (Ok (expanded_block block), block_decodes block).
Proof.
  unfold valid_block. intros V.
  apply andb_true_iff in V as [V Hbs]. apply andb_true_iff in V as [Hdec Hlist].
  unfold _expand_block, expanded_block, block_decodes.
  apply expand_record; try assumption; [discriminate |].
  rewrite forallb_forall in Hbs. apply Forall_forall. intros b Hb.
  now apply expand_batch_valid, Hbs.
Qed.

Lemma expanded_batch_expanded `{Environment} (b : json) :
  valid_batch b = true -> batch_expanded (expanded_batch b) = true.
Proof.
  unfold valid_batch. intros V.
  apply andb_true_iff in V as [V Hts]. apply andb_true_iff in V as [Hdec _].
  unfold batch_expanded, expanded_batch.
  rewrite header_with_children by discriminate.
  rewrite (with_header_expanded _ _ Hdec). cbn [andb].
  rewrite children_with_children, children_with_header by discriminate.
  rewrite forallb_forall in Hts |- *. intros t' Hin.
  apply in_map_iff in Hin as (t & <- & Hin).
  now apply with_header_expanded, Hts.
Qed.

Lemma expanded_block_expanded `{Environment} (block : json) :
  valid_block block = true -> block_expanded (expanded_block block) = true.
Proof.
  unfold valid_block. intros V.
  apply andb_true_iff in V as [V Hbs]. apply andb_true_iff in V as [Hdec _].
  unfold block_expanded, expanded_block.
  rewrite header_with_children by discriminate.
  rewrite (with_header_expanded _ _ Hdec). cbn [andb].
  rewrite children_with_children, children_with_header by discriminate.
  rewrite forallb_forall in Hbs |- *. intros b' Hin.
  apply in_map_iff in Hin as (b & <- & Hin).
  now apply expanded_batch_expanded, Hbs.
Qed.

Lemma expanded_block_batches `{Environment} (block : json) :
  children "batches" (expanded_block block)
  = map expanded_batch (children "batches" block).
Proof.
  unfold expanded_block.
  now rewrite children_with_children, children_with_header by discriminate.
Qed.

Lemma expanded_batch_transactions `{Environment} (b : json) :
  children "transactions" (expanded_batch b)
  = map (with_header TransactionHeader) (children "transactions" b).
Proof.
  unfold expanded_batch.
  now rewrite children_with_children, children_with_header by discriminate.
Qed.

Lemma with_header_decoded `{Environment} (p : header_proto) (obj : json) :
  decodes p obj = true -> header_decoded p obj (with_header p obj).
Proof.
  unfold decodes, header_decoded, decoded_header, with_header, header_of.
  destruct obj as [| | | | | d]; try discriminate.
  destruct (dict_get "header" d) as [[| | | s | |] |]; try discriminate.
  destruct (b64decode s) as [raw |]; [| discriminate].
  destruct (ParseFromString (header_class p) raw) as [h |]; [| discriminate].
  intros _. now rewrite dict_get_set_eq.
Qed.

Lemma header_of_with_children (key : string) (f : json -> json) (obj : json) :
  key <> "header" -> header_of (with_children key f obj) = header_of obj.
Proof.
  intros Hkey. unfold with_children, header_of.
  destruct obj as [| | | | | d]; try reflexivity.
  destruct (dict_get key d) as [[| | | | l |] |]; try reflexivity.
  now rewrite dict_get_set_ne.
Qed.

Lemma Forall2_map_r {A B} (R : A -> B -> Prop) (f : A -> B) (l : list A) :
  Forall (fun x => R x (f x)) l -> Forall2 R l (map f l).
Proof.
  induction 1; simpl; constructor; assumption.
Qed.

Lemma expanded_batch_decoded `{Environment} (b : json) :
  valid_batch b = true -> batch_decoded b (expanded_batch b).
Proof.
  unfold valid_batch. intros V.
  apply andb_true_iff in V as [V Hts]. apply andb_true_iff in V as [Hdec _].
  split.
  - unfold header_decoded, expanded_batch.
    rewrite header_of_with_children by discriminate.
    now apply with_header_decoded.
  - rewrite expanded_batch_transactions. apply Forall2_map_r.
    rewrite forallb_forall in Hts. apply Forall_forall. intros t Ht.
    now apply with_header_decoded, Hts.
Qed.

Lemma expanded_block_decoded `{Environment} (block : json) :
  valid_block block = true -> block_decoded block (expanded_block block).
Proof.
  unfold valid_block. intros V.
  apply andb_true_iff in V as [V Hbs]. apply andb_true_iff in V as [Hdec _].
  split.
  - unfold header_decoded, expanded_block.
    rewrite header_of_with_children by discriminate.
    now apply with_header_decoded.
  - rewrite expanded_block_batches. apply Forall2_map_r.
    rewrite forallb_forall in Hbs. apply Forall_forall. intros b Hb.
    now apply expanded_batch_decoded, Hbs.
Qed.

(** C4. Expanding a block whose header, and the headers of whose batches
    and transactions, are base64 text of protobuf headers returns the
    block with every header decoded: the header of the block, of every
    batch and of every transaction is the dict that [MessageToDict] gives
    for the protobuf header its base64 text held, so none is text any
    more; the block has as many batches, and each batch as many
    transactions, as before; and the headers are decoded depth first,
    every batch and its transactions before the block is returned. *)
Theorem expand_block_headers `{Environment} (block : json) :
  valid_block block = true ->
  let expanded := expanded_block block in
  _expand_block block = (Ok expanded, block_decodes block)
  /\ block_decoded block expanded
  /\ block_expanded expanded = true
  /\ List.length (children "batches" expanded)
     = List.length (children "batches" block)
  /\ transaction_counts expanded = transaction_counts block.
Proof.
  intros V expanded. subst expanded.
  split; [now apply expand_block_valid |].
  split; [now apply expanded_block_decoded |].
  split; [now apply expanded_block_expanded |].
  unfold transaction_counts. rewrite expanded_block_batches.
  split; [apply length_map |].
  rewrite map_map. apply map_ext. intros b.
  rewrite expanded_batch_transactions. apply length_map.
Qed.

Lemma expand_block_headers_example :
  let decoded (text : string) := JDict [("signer_pubkey", JStr text)] in
  let transaction (text : string) :=
    JDict [("header", decoded text); ("header_signature", JStr "t");
           ("payload", JStr "cGF5")] in
  let expanded :=
    JDict [("header", decoded "QmxvY2s=");
           ("header_signature", JStr "b");
           ("batches",
            JList [JDict [("header", decoded "QmF0Y2gx");
                          ("header_signature", JStr "aaa");
                          ("transactions",
                           JList [transaction "VHhuMQ=="; transaction "VHhuMg=="])];
                   JDict [("header", decoded "QmF0Y2gy");
                          ("header_signature", JStr "bbb");
                          ("transactions", JList [])]])] in
  @_expand_block demo_environment demo_block
  = (Ok expanded,
     [Decoded BlockHeader (JStr "QmxvY2s=");
      Decoded BatchHeader (JStr "QmF0Y2gx");
      Decoded TransactionHeader (JStr "VHhuMQ==");
      Decoded TransactionHeader (JStr "VHhuMg==");
      Decoded BatchHeader (JStr "QmF0Y2gy")])
  /\ @block_decoded demo_environment demo_block expanded
  /\ block_expanded expanded = true
  /\ List.length (children "batches" expanded) = 2%nat
  /\ transaction_counts expanded = [2%nat; 0%nat].
Proof.
  intros decoded transaction expanded.
  exact (@expand_block_headers demo_environment demo_block eq_refl).
Defined.

(** * Further properties *)

(** ** Inverting the monad *)

Lemma bind_inv {A B} (c : M A) (k : A -> M B) (b : B) (t : list event) :
  bind c k = (Ok b, t) ->
  exists a t1 t2, c = (Ok a, t1) /\ k a = (Ok b, t2) /\ t = t1 ++ t2.
Proof.
  destruct c as [[a | e] t1]; simpl; [| discriminate].
  destruct (k a) as [r t2] eqn:E. intros V. inversion V; subst.
  now exists a, t1, t2.
Qed.

Lemma mapM_inv {A B} (f : A -> M B) (l : list A) (ys : list B) :
  value (mapM f l) = Ok ys -> Forall2 (fun x y => value (f x) = Ok y) l ys.
Proof.
  revert ys. induction l as [| x l IH]; intros ys V.
  - simpl in V. inversion V. constructor.
  - cbn [mapM] in V.
    apply bind_value_inv in V as (y & Hy & V).
    apply bind_value_inv in V as (ys' & Hys & V).
    simpl in V. inversion V; subst. constructor; [exact Hy | now apply IH].
Qed.

(** ** What a successful expansion implies *)

Lemma parse_header_inv `{Environment} (p : header_proto) (obj r : json) :
  value (_parse_header p obj) = Ok r ->
  exists d h,
    obj = JDict d /\ decodes p obj = true
    /\ r = JDict (dict_set "header" (JDict h) d).
Proof.
  unfold _parse_header, decodes. intros V.
  destruct obj as [| | | | | d]; try discriminate.
  cbn [getitem] in V.
  destruct (dict_get "header" d) as [text |]; [| discriminate].
  cbn [lift] in V. rewrite bind_ret, bind_emit in V. cbn [value fst] in V.
  destruct text as [| | | s | |]; try discriminate.
  destruct (b64decode s) as [raw |]; [| discriminate].
  cbn [lift] in V. rewrite bind_ret in V.
  destruct (ParseFromString (header_class p) raw) as [h |]; [| discriminate].
  cbn [lift] in V. rewrite bind_ret in V. cbn [setitem] in V.
  simpl in V. inversion V.
  exists d, (message_to_dict (header_class p) h). auto.
Qed.

Lemma keys_dict_set_present {V} (k : string) (v v0 : V) (d : list (string * V)) :
  dict_get k d = Some v0 -> keys (dict_set k v d) = keys d.
Proof.
  induction d as [| [k' v'] d IH]; [discriminate |].
  simpl. destruct (k' =? k)%string eqn:E.
  - intros _. apply String.eqb_eq in E. now subst.
  - intros G. simpl. f_equal. now apply IH.
Qed.

(** The result of the common shape of [_expand_batch] and [_expand_block],
    when there is one. *)
Lemma expand_record_inv `{Environment} (p : header_proto) (key : string)
    (f : json -> M json) (obj r : json) :
  key <> "header" ->
  value
    (record <- _parse_header p obj ;;
     present <- contains key record ;;
     if present : bool then
       listed <- getitem key record ;;
       xs <- iterate listed ;;
       expanded <- mapM f xs ;;
       setitem key (JList expanded) record
     else ret record) = Ok r ->
  exists d h,
    obj = JDict d /\ decodes p obj = true
    /\ match dict_get key d with
       | None => r = JDict (dict_set "header" (JDict h) d)
       | Some listed =>
           exists xs ys,
             value (iterate listed) = Ok xs
             /\ Forall2 (fun x y => value (f x) = Ok y) xs ys
             /\ r = JDict (dict_set key (JList ys) (dict_set "header" (JDict h) d))
       end.
Proof.
  intros Hkey V.
  apply bind_value_inv in V as (record & Hrecord & V).
  apply parse_header_inv in Hrecord as (d & h & -> & Hdec & ->).
  exists d, h. split; [reflexivity |]. split; [exact Hdec |].
  cbn [contains] in V. rewrite bind_ret in V.
  unfold dict_has in V. cbn [getitem] in V.
  rewrite (dict_get_set_ne "header" key) in V by congruence.
  destruct (dict_get key d) as [listed |].
  - cbn [lift] in V. rewrite bind_ret in V.
    apply bind_value_inv in V as (xs & Hxs & V).
    apply bind_value_inv in V as (ys & Hys & V).
    exists xs, ys. split; [exact Hxs |]. split; [now apply mapM_inv |].
    simpl in V. now inversion V.
  - simpl in V. now inversion V.
Qed.

Lemma iterate_children (key : string) (d : dict) (listed : json) (xs : list json) :
  dict_get key d = Some listed ->
  value (iterate listed) = Ok xs ->
  children key (JDict d) = xs \/ children key (JDict d) = [].
Proof.
  intros G V. unfold children. rewrite G.
  destruct listed; try (now right).
  left. simpl in V. now inversion V.
Qed.

Lemma expand_transaction_inv `{Environment} (t r : json) :
  value (_expand_transaction t) = Ok r -> decodes TransactionHeader t = true.
Proof.
  intros V. apply parse_header_inv in V as (d & h & _ & Hdec & _). exact Hdec.
Qed.

Lemma Forall2_forallb {A B} (P : A -> B -> Prop) (g : A -> bool) (l : list A) (l' : list B) :
  (forall x y, P x y -> g x = true) -> Forall2 P l l' -> forallb g l = true.
Proof.
  intros Himp F. induction F as [| x y l l' Hxy _ IH]; [reflexivity |].
  simpl. now rewrite (Himp x y Hxy), IH.
Qed.

Lemma expand_batch_inv `{Environment} (b r : json) :
  value (_expand_batch b) = Ok r -> batch_headers_decode b = true.
Proof.
  unfold _expand_batch, batch_headers_decode. intros V.
  apply expand_record_inv in V as (d & h & -> & Hdec & Hr); [| discriminate].
  rewrite Hdec. cbn [andb].
  destruct (dict_get "transactions" d) as [listed |] eqn:G.
  - destruct Hr as (xs & ys & Hxs & Hall & _).
    destruct (iterate_children _ _ _ _ G Hxs) as [-> | ->]; [| reflexivity].
    eapply Forall2_forallb; [| exact Hall].
    intros x y. apply expand_transaction_inv.
  - unfold children. now rewrite G.
Qed.

(** X1. [_expand_block] never hides a header that does not decode: when it
    returns, the header of the block, of every listed batch and of every
    listed transaction was base64 text of a protobuf header.  One
    malformed header anywhere makes the whole call raise. *)
Theorem expand_block_returns_only_decoded `{Environment} (block expanded : json) :
  value (_expand_block block) = Ok expanded ->
  decodes BlockHeader block = true
  /\ forallb batch_headers_decode (children "batches" block) = true.
Proof.
  unfold _expand_block. intros V.
  apply expand_record_inv in V as (d & h & -> & Hdec & Hr); [| discriminate].
  split; [exact Hdec |].
  destruct (dict_get "batches" d) as [listed |] eqn:G.
  - destruct Hr as (xs & ys & Hxs & Hall & _).
    destruct (iterate_children _ _ _ _ G Hxs) as [-> | ->]; [| reflexivity].
    eapply Forall2_forallb; [| exact Hall].
    intros x y. apply expand_batch_inv.
  - unfold children. now rewrite G.
Qed.

Lemma expand_block_returns_only_decoded_example :
  decodes (H := demo_environment) BlockHeader demo_block = true
  /\ forallb (batch_headers_decode (H := demo_environment))
       (children "batches" demo_block) = true.
Proof.
  apply (@expand_block_returns_only_decoded demo_environment demo_block
           (@expanded_block demo_environment demo_block)).
  reflexivity.
Defined.

Lemma expand_record_fields `{Environment} (p : header_proto) (key : string)
    (f : json -> M json) (obj r : json) :
  key <> "header" ->
  value
    (record <- _parse_header p obj ;;
     present <- contains key record ;;
     if present : bool then
       listed <- getitem key record ;;
       xs <- iterate listed ;;
       expanded <- mapM f xs ;;
       setitem key (JList expanded) record
     else ret record) = Ok r ->
  exists d d',
    obj = JDict d /\ r = JDict d'
    /\ keys d' = keys d
    /\ header_expanded r = true
    /\ forall k, k <> "header" -> k <> key -> dict_get k d' = dict_get k d.
Proof.
  intros Hkey V.
  apply expand_record_inv in V as (d & h & -> & Hdec & Hr); [| exact Hkey].
  assert (Hheader : exists text, dict_get "header" d = Some text).
  { unfold decodes in Hdec.
    destruct (dict_get "header" d) as [text |]; [now exists text | discriminate]. }
  destruct Hheader as (text & Hheader).
  set (d1 := dict_set "header" (JDict h) d) in *.
  assert (K1 : keys d1 = keys d) by apply (keys_dict_set_present _ _ _ _ Hheader).
  destruct (dict_get key d) as [listed |] eqn:G.
  - destruct Hr as (xs & ys & _ & _ & ->).
    exists d, (dict_set key (JList ys) d1).
    assert (G1 : dict_get key d1 = Some listed)
      by (unfold d1; rewrite dict_get_set_ne; [exact G | congruence]).
    repeat split.
    + now rewrite (keys_dict_set_present _ _ _ _ G1).
    + unfold header_expanded. rewrite dict_get_set_ne by exact Hkey.
      unfold d1. now rewrite dict_get_set_eq.
    + intros k Hk Hk'. rewrite dict_get_set_ne by congruence.
      unfold d1. apply dict_get_set_ne. congruence.
  - subst r. exists d, d1. repeat split.
    + exact K1.
    + unfold header_expanded, d1. now rewrite dict_get_set_eq.
    + intros k Hk _. unfold d1. apply dict_get_set_ne. congruence.
Qed.

Lemma parse_header_expanded `{Environment} (p : header_proto) (obj : json) :
  header_expanded obj = true ->
  _parse_header p obj = (Raise TypeError, [Decoded p (header_of obj)]).
Proof.
  unfold header_expanded, _parse_header, header_of.
  destruct obj as [| | | | | d]; try discriminate.
  cbn [getitem].
  destruct (dict_get "header" d) as [[| | | | | h] |]; try discriminate.
  intros _. cbn [lift]. rewrite bind_ret, bind_emit. reflexivity.
Qed.

(** X2. Expansion cannot be applied twice: a block that [_expand_block]
    returned has a dict for a header, and expanding it again raises
    [TypeError] at that header, before any batch is looked at. *)
Theorem expand_block_twice_raises `{Environment} (block expanded : json) :
  value (_expand_block block) = Ok expanded ->
  _expand_block expanded
  = (Raise TypeError, [Decoded BlockHeader (header_of expanded)]).
Proof.
  intros V. unfold _expand_block in V.
  apply expand_record_fields in V as (d & d' & _ & _ & _ & Hexp & _);
    [| discriminate].
  unfold _expand_block. now rewrite (parse_header_expanded _ _ Hexp).
Qed.

Lemma expand_block_twice_raises_example :
  exists header,
    @_expand_block demo_environment (@expanded_block demo_environment demo_block)
    = (Raise TypeError, [Decoded BlockHeader (JDict header)]).
Proof.
  eexists.
  apply (@expand_block_twice_raises demo_environment demo_block
           (@expanded_block demo_environment demo_block)).
  reflexivity.
Defined.

(** X3. [_expand_block] changes the header and the batches of a block and
    nothing else: the returned record has the keys of the block, in the
    same order, and every other key keeps its value. *)
Theorem expand_block_keeps_fields `{Environment} (block expanded : json) :
  value (_expand_block block) = Ok expanded ->
  exists d d',
    block = JDict d /\ expanded = JDict d'
    /\ keys d' = keys d
    /\ forall k, k <> "header" -> k <> "batches" -> dict_get k d' = dict_get k d.
Proof.
  intros V. unfold _expand_block in V.
  apply expand_record_fields in V as (d & d' & -> & -> & K & _ & F);
    [| discriminate].
  now exists d, d'.
Qed.

Lemma expand_block_keeps_fields_example :
  exists d d',
    demo_block = JDict d
    /\ @expanded_block demo_environment demo_block = JDict d'
    /\ keys d' = keys d
    /\ forall k, k <> "header" -> k <> "batches" -> dict_get k d' = dict_get k d.
Proof.
  apply (@expand_block_keeps_fields demo_environment demo_block). reflexivity.
Defined.

(** X4. For a batch whose header and whose transactions' headers are
    base64 text of protobuf headers, [_expand_batch] returns a batch whose
    header and whose transactions' headers are dicts, with as many
    transactions, the same keys, and its other fields untouched; the batch
    header is decoded first, then those of the transactions in order. *)
Theorem expand_batch_headers `{Environment} (b : json) :
  valid_batch b = true ->
  exists expanded d d',
    _expand_batch b = (Ok expanded, batch_decodes b)
    /\ batch_expanded expanded = true
    /\ List.length (children "transactions" expanded)
       = List.length (children "transactions" b)
    /\ b = JDict d /\ expanded = JDict d' /\ keys d' = keys d
    /\ forall k, k <> "header" -> k <> "transactions" ->
                 dict_get k d' = dict_get k d.
Proof.
  intros V. pose proof (expand_batch_valid _ V) as E.
  assert (R : value (_expand_batch b) = Ok (expanded_batch b)) by now rewrite E.
  unfold _expand_batch in R.
  apply expand_record_fields in R as (d & d' & Hb & He & K & _ & F);
    [| discriminate].
  exists (expanded_batch b), d, d'.
  split; [exact E |]. split; [now apply expanded_batch_expanded |].
  split; [rewrite expanded_batch_transactions; apply length_map |].
  auto.
Qed.

Lemma expand_batch_headers_example :
  exists expanded d d',
    @_expand_batch demo_environment demo_first_batch
    = (Ok expanded,
       [Decoded BatchHeader (JStr "QmF0Y2gx");
        Decoded TransactionHeader (JStr "VHhuMQ==");
        Decoded TransactionHeader (JStr "VHhuMg==")])
    /\ batch_expanded expanded = true
    /\ List.length (children "transactions" expanded) = 2%nat
    /\ demo_first_batch = JDict d /\ expanded = JDict d' /\ keys d' = keys d
    /\ forall k, k <> "header" -> k <> "transactions" ->
                 dict_get k d' = dict_get k d.
Proof.
  apply (@expand_batch_headers demo_environment demo_first_batch). reflexivity.
Defined.

(** ** Requests that are turned away *)

Lemma parse_batch_ids_silent `{Environment} (request : Request) :
  trace (parse_batch_ids request) = [].
Proof.
  destruct (String.eqb_spec (method request) "POST") as [Hpost | Hget].
  - rewrite (parse_batch_ids_post _ Hpost).
    destruct (header_get "Content-Type" (headers request)) as [v |]; [| reflexivity].
    destruct (v =? "application/json")%string; [| reflexivity].
    destruct (json_loads (body request)) as [[| | | | [| [] ?] |] |]; reflexivity.
  - rewrite (parse_batch_ids_get _ Hget).
    destruct (dict_get "id" (query request)); reflexivity.
Qed.

(** X5. [submit_batches] returns an error response only for a wrong
    content type, an empty body or a body that is no batch list, in that
    order of precedence, and then nothing has been sent to the
    validator. *)
Theorem submit_batches_rejects_unsent `{Environment}
    (self : RouteHandler) (request : Request) (e : api_error) (t : list event) :
  submit_batches self request = (Ok (ErrorResponse e), t)
  <-> t = []
      /\ exists v, header_get "Content-Type" (headers request) = Some v
         /\ ((e = WrongBodyType /\ v <> "application/octet-stream")
             \/ (v = "application/octet-stream"
                 /\ ((e = EmptyProtobuf /\ body request = [])
                     \/ (e = BadProtobuf /\ body request <> []
                         /\ BatchList_ParseFromString (body request) = None)))).
Proof.
  unfold submit_batches.
  destruct (header_get "Content-Type" (headers request)) as [v |]; cbn [lift].
  2: { split; [discriminate | intros (_ & v & Hv & _); discriminate]. }
  rewrite bind_ret.
  destruct (String.eqb_spec v "application/octet-stream") as [E | N]; cbn [negb].
  2: { split.
       - intros V. inversion V; subst. split; [reflexivity |].
         exists v. split; [reflexivity |]. now left.
       - intros (-> & v' & Hv & [[-> _] | [E _]]); inversion Hv; subst;
           [reflexivity | contradiction]. }
  destruct (body request) as [| b0 payload] eqn:Hbody.
  { split.
    - intros V. inversion V; subst. split; [reflexivity |].
      exists "application/octet-stream". split; [reflexivity |].
      right. split; [reflexivity |]. now left.
    - intros (-> & v' & Hv & [[_ Hne] | [_ [[-> _] | [_ [Hne _]]]]]);
        [inversion Hv; congruence | reflexivity | congruence]. }
  destruct (BatchList_ParseFromString (b0 :: payload)) as [batch_list |] eqn:P.
  - split.
    + intros V. exfalso. apply (f_equal fst) in V. cbn [fst] in V.
      apply (submit_batches_after_parse self request batch_list) in V. exact V.
    + intros (_ & v' & Hv & [[_ Hne] | [_ [[_ Hb] | [_ [_ Hp]]]]]);
        [inversion Hv; congruence | discriminate | discriminate].
  - split.
    + intros V. inversion V; subst. split; [reflexivity |].
      exists "application/octet-stream". split; [reflexivity |].
      right. split; [reflexivity |]. right. repeat split. discriminate.
    + intros (-> & v' & Hv & [[_ Hne] | [_ [[_ Hb] | [-> _]]]]);
        [inversion Hv; congruence | discriminate | reflexivity].
Qed.

Lemma submit_batches_rejects_unsent_example :
  @submit_batches demo_environment demo_handler
    (demo_request "POST" [("Content-Type", "text/plain")] "localhost:8080"
       "/batches" [] "http://localhost:8080/batches" "")
  = (Ok (ErrorResponse WrongBodyType), [])
  /\ @submit_batches demo_environment demo_handler (submit_request "localhost:8080" "")
     = (Ok (ErrorResponse EmptyProtobuf), [])
  /\ @submit_batches demo_environment demo_handler (submit_request "localhost:8080" "?")
     = (Ok (ErrorResponse BadProtobuf), []).
Proof.
  split; [| split].
  - apply (@submit_batches_rejects_unsent demo_environment).
    split; [reflexivity |]. exists "text/plain". split; [reflexivity |].
    left. split; [reflexivity | discriminate].
  - apply (@submit_batches_rejects_unsent demo_environment).
    split; [reflexivity |]. exists "application/octet-stream".
    split; [reflexivity |]. right. split; [reflexivity |]. left. now split.
  - apply (@submit_batches_rejects_unsent demo_environment).
    split; [reflexivity |]. exists "application/octet-stream".
    split; [reflexivity |]. right. split; [reflexivity |]. right.
    repeat split. discriminate.
Defined.

Lemma list_statuses_rejected `{Environment} self request e t :
  list_statuses self request = (Ok (ErrorResponse e), t) ->
  t = [] /\ parse_batch_ids request = ret (inl e).
Proof.
  unfold list_statuses. intros V.
  apply bind_inv in V as (parsed & t1 & t2 & P & K & ->).
  pose proof (parse_batch_ids_silent request) as S.
  rewrite P in S. cbn [trace snd] in S. subst t1.
  destruct parsed as [e' | ids].
  - unfold ret in K. inversion K; subst. now split.
  - exfalso. apply (f_equal fst) in K. cbn [fst] in K.
    apply (list_statuses_after_parse self request ids) in K. exact K.
Qed.

(** X6. [list_statuses] returns an error response without sending
    anything to the validator, and only [MissingStatusId], for a POST of
    an empty array or a GET without the [id] parameter, or
    [BadStatusBody], for a POST. *)
Theorem list_statuses_rejects_unsent `{Environment}
    (self : RouteHandler) (request : Request) :
  (forall e t,
     list_statuses self request = (Ok (ErrorResponse e), t) ->
     t = []
     /\ ((e = MissingStatusId
          /\ ((method request = "POST" /\ json_loads (body request) = Some (JList []))
              \/ (method request <> "POST" /\ dict_get "id" (query request) = None)))
         \/ (e = BadStatusBody /\ method request = "POST")))
  /\ (method request <> "POST" -> dict_get "id" (query request) = None ->
      list_statuses self request = ret (ErrorResponse MissingStatusId))
  /\ (method request = "POST" ->
      header_get "Content-Type" (headers request) = Some "application/json" ->
      json_loads (body request) = Some (JList []) ->
      list_statuses self request = ret (ErrorResponse MissingStatusId)).
Proof.
  split; [| split].
  - intros e t V. apply list_statuses_rejected in V as [-> P].
    split; [reflexivity |].
    destruct (String.eqb_spec (method request) "POST") as [Hpost | Hget].
    + rewrite (parse_batch_ids_post _ Hpost) in P.
      destruct (header_get "Content-Type" (headers request)) as [v |];
        [| discriminate].
      destruct (v =? "application/json")%string.
      * destruct (json_loads (body request)) as [[| | | | [| [] ?] |] |];
          inversion P; subst; auto.
      * inversion P; subst; auto.
    + rewrite (parse_batch_ids_get _ Hget) in P.
      destruct (dict_get "id" (query request)); inversion P; subst.
      left. split; [reflexivity |]. right. now split.
  - intros Hget Hid. unfold list_statuses.
    rewrite (parse_batch_ids_get _ Hget), Hid. reflexivity.
  - intros Hpost Hct Hbody. unfold list_statuses.
    rewrite (parse_batch_ids_post _ Hpost), Hct, Hbody. reflexivity.
Qed.

Lemma list_statuses_rejects_unsent_example :
  @list_statuses demo_environment demo_handler
    (bare_request "GET" "/batch_status" "")
  = ret (ErrorResponse MissingStatusId)
  /\ @list_statuses demo_environment demo_handler (post_status_request body_empty)
     = ret (ErrorResponse MissingStatusId).
Proof.
  destruct (@list_statuses_rejects_unsent demo_environment demo_handler
              (bare_request "GET" "/batch_status" "")) as (_ & Hget & _).
  destruct (@list_statuses_rejects_unsent demo_environment demo_handler
              (post_status_request body_empty)) as (_ & _ & Hpost).
  split.
  - apply Hget; [discriminate | reflexivity].
  - apply Hpost; reflexivity.
Defined.

(** ** Queries that fail *)

Lemma set_wait_silent {Q} `{ValidatorQuery Q} self request (q : Q) :
  trace (_set_wait self request q) = [].
Proof.
  unfold _set_wait.
  destruct (negb _); [| reflexivity].
  destruct (match int _ with Some n => _ | None => None end); [reflexivity |].
  destruct (int_095 (_timeout self)) as [default |]; [| reflexivity].
  cbn [lift]. rewrite bind_ret.
  destruct (set_timeout default _); reflexivity.
Qed.

Lemma set_wait_ok {Q} `{ValidatorQuery Q} self request (q q' : Q) :
  value (_set_wait self request q) = Ok q' -> _set_wait self request q = ret q'.
Proof.
  intros V. pose proof (set_wait_silent self request q) as S.
  destruct (_set_wait self request q) as [r t]. simpl in V, S. now subst.
Qed.

Lemma try_validator_request_answered {Q} `{ValidatorQuery Q}
    self message_type (content : Q + bytes) c :
  send (_stream self) message_type (wire content) (_timeout self)
  = Arrived (FutureResult c) ->
  _try_validator_request self message_type content
  = (Ok c, [Sent message_type (wire content)]).
Proof.
  intros F. unfold _try_validator_request. fold (wire content).
  rewrite bind_emit, F. reflexivity.
Qed.

Lemma try_validator_request_lost {Q} `{ValidatorQuery Q}
    self message_type (content : Q + bytes) :
  (forall c, send (_stream self) message_type (wire content) (_timeout self)
             <> Arrived (FutureResult c)) ->
  _try_validator_request self message_type content
  = (Raise (HTTPError ValidatorUnavailable), [Sent message_type (wire content)]).
Proof.
  intros F. unfold _try_validator_request. fold (wire content).
  rewrite bind_emit.
  destruct (send (_stream self) message_type (wire content) (_timeout self))
    as [| [c |]]; try reflexivity.
  now destruct (F c).
Qed.

(** X7. [_query_validator] sends its message once.  Without a reply it
    raises [ValidatorUnavailable] and neither parses nor consults a trap;
    with a reply it is [_try_response_parse] on the content of the reply,
    after the one message; a reply that does not parse raises
    [DecodeError], again before any trap. *)
Theorem query_validator_outcomes {Q T} `{ValidatorQuery Q}
    (self : RouteHandler) (req_type : Z) (resp_proto : ReplyProto T)
    (content : Q + bytes) (traps : option (list ErrorTrap)) :
  let answer := send (_stream self) req_type (wire content) (_timeout self) in
  let call := _query_validator self req_type resp_proto content traps in
  ((forall c, answer <> Arrived (FutureResult c)) ->
   call = (Raise (HTTPError ValidatorUnavailable), [Sent req_type (wire content)]))
  /\ (forall c, answer = Arrived (FutureResult c) ->
      call = (value (_try_response_parse resp_proto c traps),
              Sent req_type (wire content)
                :: trace (_try_response_parse resp_proto c traps))
      /\ (ParseFromString resp_proto c = None ->
          call = (Raise DecodeError, [Sent req_type (wire content)]))).
Proof.
  intros answer call. subst answer call. unfold _query_validator. split.
  - intros F. now rewrite (try_validator_request_lost _ _ _ F).
  - intros c F. rewrite (try_validator_request_answered _ _ _ _ F), bind_pair.
    split; [reflexivity |].
    intros P. unfold _try_response_parse. rewrite P. reflexivity.
Qed.

Lemma query_validator_outcomes_example :
  let ask (s : string) :=
    @_query_validator ClientBatchStatusRequest ClientBatchStatusResponse
      (@status_query demo_environment) demo_handler 116
      (@ClientBatchStatusResponse_proto demo_environment)
      (inr (bytes_of s)) (Some [@StatusesNotReturned demo_environment]) in
  ask "timeout"
  = (Raise (HTTPError ValidatorUnavailable), [Sent 116 (bytes_of "timeout")])
  /\ ask "xaa"
     = (Raise (HTTPError UnknownError),
        Sent 116 (bytes_of "xaa")
          :: checks 1 [@StatusesNotReturned demo_environment; Unknown 1]).
Proof.
  intros ask. split.
  - apply (@query_validator_outcomes ClientBatchStatusRequest ClientBatchStatusResponse
             (@status_query demo_environment) demo_handler 116
             (@ClientBatchStatusResponse_proto demo_environment)
             (inr (bytes_of "timeout"))).
    intros c. discriminate.
  - destruct (@query_validator_outcomes ClientBatchStatusRequest ClientBatchStatusResponse
                (@status_query demo_environment) demo_handler 116
                (@ClientBatchStatusResponse_proto demo_environment)
                (inr (bytes_of "xaa")) (Some [@StatusesNotReturned demo_environment]))
      as [_ Hanswered].
    destruct (Hanswered (bytes_of "xaa") eq_refl) as [Hcall _].
    exact Hcall.
Defined.

Lemma try_response_parse_first_trap {T} (proto : ReplyProto T) response t ts parsed :
  ParseFromString proto response = Some parsed ->
  trigger t = status proto parsed ->
  _try_response_parse proto response (Some (t :: ts))
  = (Raise (HTTPError (error t)), [Checked t (status proto parsed)]).
Proof.
  intros P Ht. rewrite (try_response_parse_unfold _ _ _ _ P).
  unfold trap_order, given_traps.
  change ((t :: ts) ++ baseline_traps proto)
    with ([] ++ t :: (ts ++ baseline_traps proto)).
  rewrite (for_each_stop _ [] t _ (Forall_nil _) Ht). reflexivity.
Qed.

Lemma submit_batches_after_checks `{Environment} self request batch_list q :
  header_get "Content-Type" (headers request) = Some "application/octet-stream" ->
  body request <> [] ->
  BatchList_ParseFromString (body request) = Some batch_list ->
  value (_set_wait self request
           {| batches := batch_list; submit_wait_for_commit := false;
              submit_timeout := 0 |}) = Ok q ->
  forall e t,
    _query_validator self CLIENT_BATCH_SUBMIT_REQUEST
      ClientBatchSubmitResponse_proto (inl q) (Some [InvalidBatch])
    = (Raise e, t) ->
    submit_batches self request = (Raise e, t).
Proof.
  intros Hct Hbody Hparse Hwait e t Hq.
  unfold submit_batches. rewrite Hct. cbn [lift]. rewrite bind_ret.
  simpl (negb _).
  destruct (body request) as [| b0 payload] eqn:Hpayload; [congruence |].
  rewrite Hparse. cbv zeta.
  rewrite (set_wait_ok _ _ _ _ Hwait), bind_ret, Hq. reflexivity.
Qed.

(** X8. A submission that passed the checks asks the validator once.
    When no reply comes, [submit_batches] raises [ValidatorUnavailable];
    when the reply has the status of an invalid batch, it raises the error
    of the [InvalidBatch] trap, the first trap consulted.  Neither case
    returns an envelope. *)
Theorem submit_batches_validator_errors `{Environment}
    (self : RouteHandler) (request : Request) (batch_list : list Batch)
    (q : ClientBatchSubmitRequest) :
  header_get "Content-Type" (headers request) = Some "application/octet-stream" ->
  body request <> [] ->
  BatchList_ParseFromString (body request) = Some batch_list ->
  value (_set_wait self request
           {| batches := batch_list; submit_wait_for_commit := false;
              submit_timeout := 0 |}) = Ok q ->
  let sent := Sent CLIENT_BATCH_SUBMIT_REQUEST (submit_request_bytes q) in
  let answer :=
    send (_stream self) CLIENT_BATCH_SUBMIT_REQUEST (submit_request_bytes q)
      (_timeout self) in
  ((forall c, answer <> Arrived (FutureResult c)) ->
   submit_batches self request
   = (Raise (HTTPError ValidatorUnavailable), [sent]))
  /\ (forall c r,
        answer = Arrived (FutureResult c) ->
        submit_response_parse c = Some r ->
        submit_status r = INVALID_BATCH ->
        submit_batches self request
        = (Raise (HTTPError InvalidBatchError),
           [sent; Checked InvalidBatch INVALID_BATCH])).
Proof.
  intros Hct Hbody Hparse Hwait sent answer. subst sent answer. split.
  - intros F.
    apply (submit_batches_after_checks _ _ _ _ Hct Hbody Hparse Hwait).
    unfold _query_validator.
    rewrite (@try_validator_request_lost _ submit_query self
               CLIENT_BATCH_SUBMIT_REQUEST (inl q) F).
    reflexivity.
  - intros c r F P S.
    apply (submit_batches_after_checks _ _ _ _ Hct Hbody Hparse Hwait).
    unfold _query_validator.
    rewrite (@try_validator_request_answered _ submit_query self
               CLIENT_BATCH_SUBMIT_REQUEST (inl q) c F), bind_pair.
    rewrite (try_response_parse_first_trap ClientBatchSubmitResponse_proto
               c InvalidBatch [] r P); [| symmetry; exact S].
    cbn [value trace fst snd status ClientBatchSubmitResponse_proto].
    now rewrite S.
Qed.

Lemma submit_batches_validator_errors_example :
  @submit_batches strict_environment demo_handler
    (submit_request "localhost:8080" "ta,bb")
  = (Raise (HTTPError ValidatorUnavailable), [Sent 119 (bytes_of "ta,bb")])
  /\ @submit_batches strict_environment demo_handler
       (submit_request "localhost:8080" "ia,bb")
     = (Raise (HTTPError InvalidBatchError),
        [Sent 119 (bytes_of "ia,bb");
         Checked (@InvalidBatch strict_environment) 2]).
Proof.
  assert (Hbody : forall text, text <> "" ->
            body (submit_request "localhost:8080" text) <> [])
    by (intros [| c text] Hne; [congruence | discriminate]).
  split.
  - destruct (@submit_batches_validator_errors strict_environment demo_handler
                (submit_request "localhost:8080" "ta,bb")
                (map demo_batch ["ta"; "bb"]) (submitted ["ta"; "bb"] true 30)
                eq_refl (Hbody "ta,bb" ltac:(discriminate)) eq_refl eq_refl)
      as [Hlost _].
    apply Hlost. intros c. discriminate.
  - destruct (@submit_batches_validator_errors strict_environment demo_handler
                (submit_request "localhost:8080" "ia,bb")
                (map demo_batch ["ia"; "bb"]) (submitted ["ia"; "bb"] true 30)
                eq_refl (Hbody "ia,bb" ltac:(discriminate)) eq_refl eq_refl)
      as [_ Hinvalid].
    apply (Hinvalid (bytes_of "ia,bb")
             {| submit_status := 2;
                submit_batch_statuses :=
                  [("ia", "COMMITTED"); ("bb", "COMMITTED")] |});
      reflexivity.
Defined.

(** ** Batch statuses *)

Lemma texts_of_map_JStr (l : list string) : texts_of (map JStr l) = Some l.
Proof.
  induction l as [| s l IH]; [reflexivity |].
  simpl. now rewrite IH.
Qed.

Lemma new_status_request `{Environment} (js : list json) (l : list string) :
  texts_of js = Some l ->
  new_ClientBatchStatusRequest (JList js)
  = ret {| batch_ids := l; status_wait_for_commit := false; status_timeout := 0 |}.
Proof.
  intros T. unfold new_ClientBatchStatusRequest. cbn [iterate].
  rewrite bind_ret, mapM_as_text, T. reflexivity.
Qed.

(** [list_statuses] once the ids are read and the query is built. *)
Lemma list_statuses_queried `{Environment} self request js l q :
  parse_batch_ids request = ret (inr (JList js)) ->
  texts_of js = Some l ->
  value (_set_wait self request
           {| batch_ids := l; status_wait_for_commit := false;
              status_timeout := 0 |}) = Ok q ->
  list_statuses self request =
    (response <-
       _query_validator self CLIENT_BATCH_STATUS_REQUEST
         ClientBatchStatusResponse_proto (inl q) (Some [StatusesNotReturned]) ;;
     let metadata :=
       if negb (method request =? "POST")%string
       then Some (_get_metadata request response)
       else None in
     let data :=
       match dict_get "batch_statuses" response with
       | Some v => v
       | None => JNone
       end in
     ret (Response (_wrap_response data metadata 200))).
Proof.
  intros P T W. unfold list_statuses.
  rewrite P, bind_ret, (new_status_request _ _ T), bind_ret.
  now rewrite (set_wait_ok _ _ _ _ W), bind_ret.
Qed.

Lemma query_validator_sends {Q T} `{ValidatorQuery Q} self req_type
    (resp_proto : ReplyProto T) (content : Q + bytes) traps :
  exists rest,
    trace (_query_validator self req_type resp_proto content traps)
    = Sent req_type (wire content) :: rest.
Proof.
  unfold _query_validator.
  destruct (send (_stream self) req_type (wire content) (_timeout self))
    as [| [c |]] eqn:F.
  - rewrite (try_validator_request_lost self req_type content);
      [now exists [] | intros c; congruence].
  - rewrite (try_validator_request_answered self req_type content c F), bind_pair.
    now eexists.
  - rewrite (try_validator_request_lost self req_type content);
      [now exists [] | intros c; congruence].
Qed.

Lemma bind_trace_head {A B} (c : M A) (k : A -> M B) ev rest :
  trace c = ev :: rest -> exists rest', trace (bind c k) = ev :: rest'.
Proof.
  destruct c as [[a | e] t]; simpl; intros ->.
  - destruct (k a) as [r t']. simpl. now eexists.
  - now eexists.
Qed.

Lemma list_statuses_answered `{Environment} self request js l q reply :
  parse_batch_ids request = ret (inr (JList js)) ->
  texts_of js = Some l ->
  value (_set_wait self request
           {| batch_ids := l; status_wait_for_commit := false;
              status_timeout := 0 |}) = Ok q ->
  value (_query_validator self CLIENT_BATCH_STATUS_REQUEST
           ClientBatchStatusResponse_proto (inl q) (Some [StatusesNotReturned]))
    = Ok (message_to_dict ClientBatchStatusResponse_proto reply) ->
  value (list_statuses self request) =
    let data := statuses_dict (statuses_batch_statuses reply) in
    Ok (Response (envelope_response 200
          (if (method request =? "POST")%string
           then [("data", data)]
           else [("link", JStr (url request)); ("data", data)]))).
Proof.
  intros P T W V. rewrite (list_statuses_queried _ _ _ _ _ P T W).
  rewrite (bind_ok _ _ _ V). cbn [value fst].
  destruct (method request =? "POST")%string; reflexivity.
Qed.

(** X9. A GET of batch statuses sends the validator one query whose batch
    ids are the [id] parameter split on commas.  When it is answered, the
    response has status 200, the verbatim request URL as its link, no
    head, and the status map of the reply as its data, even when the map
    is empty. *)
Theorem list_statuses_get `{Environment}
    (self : RouteHandler) (request : Request) (text : string)
    (q : ClientBatchStatusRequest) :
  method request <> "POST" ->
  dict_get "id" (query request) = Some text ->
  value (_set_wait self request
           {| batch_ids := split "," text; status_wait_for_commit := false;
              status_timeout := 0 |}) = Ok q ->
  (exists rest,
     trace (list_statuses self request)
     = Sent CLIENT_BATCH_STATUS_REQUEST (status_request_bytes q) :: rest)
  /\ (forall reply,
        value (_query_validator self CLIENT_BATCH_STATUS_REQUEST
                 ClientBatchStatusResponse_proto (inl q)
                 (Some [StatusesNotReturned]))
          = Ok (message_to_dict ClientBatchStatusResponse_proto reply) ->
        value (list_statuses self request)
        = Ok (Response (envelope_response 200
                [("link", JStr (url request));
                 ("data", statuses_dict (statuses_batch_statuses reply))]))).
Proof.
  intros Hget Hid W.
  assert (P : parse_batch_ids request
              = ret (inr (JList (map JStr (split "," text)))))
    by now rewrite (parse_batch_ids_get _ Hget), Hid.
  pose proof (texts_of_map_JStr (split "," text)) as T.
  split.
  - rewrite (list_statuses_queried _ _ _ _ _ P T W).
    destruct (query_validator_sends self CLIENT_BATCH_STATUS_REQUEST
                ClientBatchStatusResponse_proto (inl q)
                (Some [StatusesNotReturned])) as (rest & R).
    eapply bind_trace_head. exact R.
  - intros reply V.
    rewrite (list_statuses_answered _ _ _ _ _ _ P T W V).
    apply String.eqb_neq in Hget. now rewrite Hget.
Qed.

Lemma list_statuses_get_example :
  (exists rest,
     trace (@list_statuses demo_environment demo_handler (get_status_request ""))
     = Sent 116 (bytes_of "") :: rest)
  /\ value (@list_statuses demo_environment demo_handler (get_status_request "na,bb"))
     = Ok (Response (envelope_response 200
             [("link", JStr "http://localhost:8080/batch_status?id=na,bb");
              ("data", JDict [])])).
Proof.
  split.
  - apply (@list_statuses_get demo_environment demo_handler
             (get_status_request "") ""
             {| batch_ids := [""]; status_wait_for_commit := false;
                status_timeout := 0 |});
      [discriminate | reflexivity | reflexivity].
  - destruct (@list_statuses_get demo_environment demo_handler
                (get_status_request "na,bb") "na,bb"
                {| batch_ids := ["na"; "bb"]; status_wait_for_commit := false;
                   status_timeout := 0 |})
      as [_ Hanswer]; [discriminate | reflexivity | reflexivity |].
    apply (Hanswer {| statuses_status := 0; statuses_batch_statuses := [] |}).
    reflexivity.
Defined.

(** X10. An answered POST of batch statuses has status 200 and a body
    with the status map of the reply as its data and nothing else: no
    link and no head. *)
Theorem list_statuses_post `{Environment}
    (self : RouteHandler) (request : Request) (first : string) (rest : list json)
    (ids : list string) (q : ClientBatchStatusRequest)
    (reply : ClientBatchStatusResponse) :
  method request = "POST" ->
  header_get "Content-Type" (headers request) = Some "application/json" ->
  json_loads (body request) = Some (JList (JStr first :: rest)) ->
  texts_of rest = Some ids ->
  value (_set_wait self request
           {| batch_ids := first :: ids; status_wait_for_commit := false;
              status_timeout := 0 |}) = Ok q ->
  value (_query_validator self CLIENT_BATCH_STATUS_REQUEST
           ClientBatchStatusResponse_proto (inl q) (Some [StatusesNotReturned]))
    = Ok (message_to_dict ClientBatchStatusResponse_proto reply) ->
  value (list_statuses self request)
  = Ok (Response (envelope_response 200
          [("data", statuses_dict (statuses_batch_statuses reply))])).
Proof.
  intros Hpost Hct Hbody T W V.
  assert (P : parse_batch_ids request = ret (inr (JList (JStr first :: rest))))
    by now rewrite (parse_batch_ids_post _ Hpost), Hct, Hbody.
  assert (T' : texts_of (JStr first :: rest) = Some (first :: ids))
    by (simpl; now rewrite T).
  rewrite (list_statuses_answered _ _ _ _ _ _ P T' W V).
  apply String.eqb_eq in Hpost. now rewrite Hpost.
Qed.

Lemma list_statuses_post_example :
  value (@list_statuses demo_environment demo_handler
           (post_status_request body_one_id))
  = Ok (Response (envelope_response 200
          [("data", JDict [("aaa", JStr "COMMITTED")])])).
Proof.
  apply (@list_statuses_post demo_environment demo_handler
           (post_status_request body_one_id) "aaa" [] []
           {| batch_ids := ["aaa"]; status_wait_for_commit := false;
              status_timeout := 0 |}
           {| statuses_status := 0;
              statuses_batch_statuses := [("aaa", "COMMITTED")] |});
    reflexivity.
Defined.

(** X11. Once the ids are read and the query is built, [list_statuses]
    asks the validator once: without a reply it raises
    [ValidatorUnavailable], and a reply with the status of statuses that
    are not returned raises the error of the [StatusesNotReturned] trap,
    the first one consulted. *)
Theorem list_statuses_validator_errors `{Environment}
    (self : RouteHandler) (request : Request) (js : list json) (l : list string)
    (q : ClientBatchStatusRequest) :
  parse_batch_ids request = ret (inr (JList js)) ->
  texts_of js = Some l ->
  value (_set_wait self request
           {| batch_ids := l; status_wait_for_commit := false;
              status_timeout := 0 |}) = Ok q ->
  let sent := Sent CLIENT_BATCH_STATUS_REQUEST (status_request_bytes q) in
  let answer :=
    send (_stream self) CLIENT_BATCH_STATUS_REQUEST (status_request_bytes q)
      (_timeout self) in
  ((forall c, answer <> Arrived (FutureResult c)) ->
   list_statuses self request
   = (Raise (HTTPError ValidatorUnavailable), [sent]))
  /\ (forall c r,
        answer = Arrived (FutureResult c) ->
        statuses_response_parse c = Some r ->
        statuses_status r = NO_RESOURCE ->
        list_statuses self request
        = (Raise (HTTPError StatusesNotReturnedError),
           [sent; Checked StatusesNotReturned NO_RESOURCE])).
Proof.
  intros P T W sent answer. subst sent answer.
  rewrite (list_statuses_queried _ _ _ _ _ P T W).
  unfold _query_validator. split.
  - intros F.
    rewrite (@try_validator_request_lost _ status_query self
               CLIENT_BATCH_STATUS_REQUEST (inl q) F).
    reflexivity.
  - intros c r F Hr S.
    rewrite (@try_validator_request_answered _ status_query self
               CLIENT_BATCH_STATUS_REQUEST (inl q) c F), bind_pair.
    rewrite (try_response_parse_first_trap ClientBatchStatusResponse_proto
               c StatusesNotReturned [] r Hr); [| symmetry; exact S].
    cbn [value trace fst snd status ClientBatchStatusResponse_proto].
    now rewrite S.
Qed.

Lemma list_statuses_validator_errors_example :
  @list_statuses strict_environment demo_handler (get_status_request "ta")
  = (Raise (HTTPError ValidatorUnavailable), [Sent 116 (bytes_of "ta")])
  /\ @list_statuses strict_environment demo_handler (get_status_request "ra,bb")
     = (Raise (HTTPError StatusesNotReturnedError),
        [Sent 116 (bytes_of "ra,bb");
         Checked (@StatusesNotReturned strict_environment) 5]).
Proof.
  split.
  - destruct (@list_statuses_validator_errors strict_environment demo_handler
                (get_status_request "ta") [JStr "ta"] ["ta"]
                {| batch_ids := ["ta"]; status_wait_for_commit := false;
                   status_timeout := 0 |} eq_refl eq_refl eq_refl)
      as [Hlost _].
    apply Hlost. intros c. discriminate.
  - destruct (@list_statuses_validator_errors strict_environment demo_handler
                (get_status_request "ra,bb") [JStr "ra"; JStr "bb"] ["ra"; "bb"]
                {| batch_ids := ["ra"; "bb"]; status_wait_for_commit := false;
                   status_timeout := 0 |} eq_refl eq_refl eq_refl)
      as [_ Htrap].
    apply (Htrap (bytes_of "ra,bb")
             {| statuses_status := 5;
                statuses_batch_statuses :=
                  [("ra", "COMMITTED"); ("bb", "COMMITTED")] |});
      reflexivity.
Defined.

(** ** The envelopes of a submission *)

(** X12. Whatever the request and the validator, an envelope returned by
    [submit_batches] has status 200, 201 or 202 and always a link; with
    201 and 202 it has no data, and with 200 it has data that is not
    empty. *)
Theorem submit_batches_envelopes `{Environment}
    (self : RouteHandler) (request : Request) (r : web.Response) :
  value (submit_batches self request) = Ok (Response r) ->
  submission_status (web.status r)
  /\ exists link,
       r = envelope_response 202 [("link", JStr link)]
       \/ r = envelope_response 201 [("link", JStr link)]
       \/ exists data,
            truthy data = true
            /\ r = envelope_response 200 [("link", JStr link); ("data", data)].
Proof.
  unfold submit_batches. intros V.
  apply bind_value_inv in V as (v & _ & V).
  destruct (negb _); [discriminate |].
  destruct (body request); [discriminate |].
  destruct (BatchList_ParseFromString _) as [batch_list |]; [| discriminate].
  cbv zeta in V.
  apply bind_value_inv in V as (q & _ & V).
  apply bind_value_inv in V as (response & _ & V).
  apply bind_value_inv in V as (statuses & _ & V).
  unfold py_or in V.
  destruct (truthy statuses) eqn:Tr.
  - destruct statuses as [| | | | | d]; try discriminate Tr;
      try (apply bind_value_inv in V as (entries & I & _); discriminate I).
    apply bind_value_inv in V as (entries & _ & V).
    destruct (existsb _ entries); simpl in V; inversion V; subst r.
    + split; [now left |]. eexists. right. right.
      exists (JDict d). split; [exact Tr | reflexivity].
    + split; [right; now left |]. eexists. right. left. reflexivity.
  - simpl in V. inversion V; subst r.
    split; [right; now right |]. eexists. left. reflexivity.
Qed.

Lemma submit_batches_envelopes_example :
  submission_status 201
  /\ exists link,
       envelope_response 201 [("link", JStr "http://localhost:8080/batches?id=aa,bb")]
       = envelope_response 202 [("link", JStr link)]
       \/ envelope_response 201 [("link", JStr "http://localhost:8080/batches?id=aa,bb")]
          = envelope_response 201 [("link", JStr link)]
       \/ exists data,
            truthy data = true
            /\ envelope_response 201
                 [("link", JStr "http://localhost:8080/batches?id=aa,bb")]
               = envelope_response 200 [("link", JStr link); ("data", data)].
Proof.
  exact (@submit_batches_envelopes demo_environment demo_handler
           (submit_request "localhost:8080" "aa,bb")
           (envelope_response 201
              [("link", JStr "http://localhost:8080/batches?id=aa,bb")])
           eq_refl).
Defined.

(** ** More on the [wait] parameter *)

Lemma set_timeout_refused {Q} `{ValidatorQuery Q} (z : Z) (q : Q) :
  set_timeout z q = None <-> timeout_accepts z = false.
Proof.
  pose proof (set_timeout_spec z q) as S.
  destruct (timeout_accepts z).
  - destruct S as (q' & E & _). rewrite E. split; discriminate.
  - split; [reflexivity | intros _; exact S].
Qed.

(** X13. [_set_wait] raises only when a wait is requested and the
    timeout field takes no [int(wait)].  It then raises [ValueError] when
    the field refuses the default of 95% of the gateway's timeout as well,
    and [OverflowError] when the gateway's timeout is too large for its
    product with [0.95] to be computed; otherwise it returns, and it
    raises nothing else. *)
Theorem set_wait_raises {Q} `{ValidatorQuery Q}
    (self : RouteHandler) (request : Request) (q : Q) (e : exn) :
  value (_set_wait self request q) = Raise e
  <-> ~ wait_declined request
      /\ (forall n, int (wait_text request) = Some n -> timeout_accepts n = false)
      /\ match int_095 (_timeout self) with
         | Some default => e = ValueError /\ timeout_accepts default = false
         | None => e = OverflowError
         end.
Proof.
  rewrite wait_declined_text.
  destruct (string_dec (lower (wait_text request)) "false") as [D | D].
  - rewrite (set_wait_declined _ _ _ D). split; [discriminate |].
    intros (N & _). contradiction.
  - rewrite (set_wait_requested _ _ _ D). cbv zeta.
    set (q1 := set_wait_for_commit true q).
    pose proof (set_wait_attempt_failed (wait_text request) q1) as F.
    destruct (match int (wait_text request) with
              | Some n => set_timeout n q1
              | None => None
              end) as [q2 |].
    + split; [discriminate |]. intros (_ & Hn & _).
      apply F in Hn. discriminate.
    + assert (Hn : forall n, int (wait_text request) = Some n ->
                             timeout_accepts n = false) by now apply F.
      destruct (int_095 (_timeout self)) as [default |].
      * pose proof (set_timeout_refused default q1) as Rd.
        destruct (set_timeout default q1) as [q2 |]; simpl.
        -- split; [discriminate |]. intros (_ & _ & _ & Hd).
           apply Rd in Hd. discriminate.
        -- split.
           ++ intros V. inversion V. repeat split; [exact D | exact Hn |].
              now apply Rd.
           ++ intros (_ & _ & -> & _). reflexivity.
      * simpl. split.
        -- intros V. inversion V. repeat split; [exact D | exact Hn].
        -- intros (_ & _ & ->). reflexivity.
Qed.

Lemma set_wait_raises_example :
  value (@_set_wait _ (@submit_query demo_environment) patient_handler
           (wait_request "yes") fresh_submit_request) = Raise ValueError
  /\ value (@_set_wait _ (@submit_query demo_environment)
              {| _stream := demo_stream; _timeout := 2 ^ 1024 |}
              (wait_request "-1") fresh_submit_request) = Raise OverflowError.
Proof.
  split.
  - apply (@set_wait_raises _ (@submit_query demo_environment) patient_handler
             (wait_request "yes") fresh_submit_request ValueError).
    split; [cbv; discriminate |].
    split; [intros n Hn; discriminate Hn |].
    vm_compute. split; reflexivity.
  - apply (@set_wait_raises _ (@submit_query demo_environment)
             {| _stream := demo_stream; _timeout := 2 ^ 1024 |}
             (wait_request "-1") fresh_submit_request OverflowError).
    split; [cbv; discriminate |].
    split; [intros n Hn; inversion Hn; reflexivity |].
    vm_compute. reflexivity.
Defined.

(** X14. [_set_wait] touches the wait fields only: the batches of a
    submit query and the batch ids of a status query are what they were.
    The query it hands back is the query it was given, or has
    [wait_for_commit] set and a timeout that is [int(wait)] or the
    default [int(0.95 * timeout)]; a timeout is never set without
    [wait_for_commit]. *)
Theorem set_wait_keeps_payload `{Environment} (self : RouteHandler) (request : Request) :
  (forall q q' : ClientBatchSubmitRequest,
     value (_set_wait self request q) = Ok q' ->
     batches q' = batches q
     /\ (q' = q
         \/ (submit_wait_for_commit q' = true
             /\ (int (wait_text request) = Some (submit_timeout q')
                 \/ int_095 (_timeout self) = Some (submit_timeout q')))))
  /\ (forall q q' : ClientBatchStatusRequest,
        value (_set_wait self request q) = Ok q' ->
        batch_ids q' = batch_ids q
        /\ (q' = q
            \/ (status_wait_for_commit q' = true
                /\ (int (wait_text request) = Some (status_timeout q')
                    \/ int_095 (_timeout self) = Some (status_timeout q'))))).
Proof.
  split; intros q q';
    (destruct (string_dec (lower (wait_text request)) "false") as [D | D];
     [ rewrite (set_wait_declined _ _ _ D); intros V; inversion V; auto
     | rewrite (set_wait_requested _ _ _ D); cbv zeta;
       cbn [set_timeout set_wait_for_commit submit_query status_query];
       unfold assign_int;
       destruct (int (wait_text request)) as [n |];
       [ destruct (timeout_range n) |];
       try (destruct (int_095 (_timeout self)) as [default |];
            [ destruct (timeout_range default) |]);
       simpl; intros V; inversion V; subst; simpl; auto ]).
Qed.

Lemma set_wait_keeps_payload_example :
  let q := submitted ["aa"; "bb"] false 0 in
  (let q' := submitted ["aa"; "bb"] true 30 in
   batches q' = batches q
   /\ (q' = q
       \/ (submit_wait_for_commit q' = true
           /\ (int (wait_text (wait_request "30")) = Some (submit_timeout q')
               \/ int_095 (_timeout demo_handler) = Some (submit_timeout q')))))
  /\ (let q' := submitted ["aa"; "bb"] true 285 in
      batches q' = batches q
      /\ (q' = q
          \/ (submit_wait_for_commit q' = true
              /\ (int (wait_text (wait_request "yes")) = Some (submit_timeout q')
                  \/ int_095 (_timeout demo_handler) = Some (submit_timeout q'))))).
Proof.
  intros q. split.
  - destruct (@set_wait_keeps_payload demo_environment demo_handler (wait_request "30"))
      as [Hsubmit _].
    apply (Hsubmit q (submitted ["aa"; "bb"] true 30)). reflexivity.
  - destruct (@set_wait_keeps_payload demo_environment demo_handler (wait_request "yes"))
      as [Hsubmit _].
    apply (Hsubmit q (submitted ["aa"; "bb"] true 285)). reflexivity.
Defined.

(** ** Filters and links *)

Lemma split_nonempty (sep : ascii) (s : string) : split sep s <> [].
Proof.
  destruct s as [| c s]; simpl; [discriminate |].
  destruct (c =? sep)%char; [discriminate |].
  destruct (split sep s); discriminate.
Qed.

Lemma join_split (sep : ascii) (s : string) :
  join (String sep "") (split sep s) = s.
Proof.
  unfold join. induction s as [| c s IH]; [reflexivity |].
  pose proof (split_nonempty sep s) as N.
  cbn [split].
  destruct (Ascii.eqb_spec c sep) as [-> | _].
  - destruct (split sep s) as [| w ws]; [congruence |].
    change (concat (String sep "") ("" :: w :: ws))
      with (String sep (concat (String sep "") (w :: ws))).
    now rewrite IH.
  - destruct (split sep s) as [| w ws]; [congruence |].
    destruct ws as [| x xs].
    + simpl in *. now rewrite IH.
    + change (concat (String sep "") (String c w :: x :: xs))
        with (String c (concat (String sep "") (w :: x :: xs))).
      now rewrite IH.
Qed.

Lemma split_parts (sep : ascii) (s : string) :
  Forall (fun part => mentions sep part = false) (split sep s).
Proof.
  induction s as [| c s IH]; [repeat constructor |].
  cbn [split].
  destruct (Ascii.eqb_spec c sep) as [-> | Hne].
  - constructor; [reflexivity | exact IH].
  - destruct (split sep s) as [| w ws]; [repeat constructor |].
    + simpl. apply Ascii.eqb_neq in Hne. now rewrite Hne.
    + inversion IH; subst. constructor; [| assumption].
      simpl. apply Ascii.eqb_neq in Hne. now rewrite Hne.
Qed.

(** X15. [_get_filter_ids] gives [None] without an [id] parameter and the
    empty text, not a list, for an empty one.  Otherwise it gives a list
    of at least one id, none of which has a comma, and joining the list
    with commas gives the parameter back. *)
Theorem get_filter_ids_round_trip (request : Request) :
  (dict_get "id" (query request) = None -> _get_filter_ids request = JNone)
  /\ (dict_get "id" (query request) = Some "" ->
      _get_filter_ids request = JStr "")
  /\ (forall text,
        dict_get "id" (query request) = Some text -> text <> "" ->
        exists parts,
          _get_filter_ids request = JList (map JStr parts)
          /\ parts <> []
          /\ join "," parts = text
          /\ Forall (fun part => mentions "," part = false) parts).
Proof.
  unfold _get_filter_ids. split; [| split].
  - now intros ->.
  - now intros ->.
  - intros text -> Hne. apply String.eqb_neq in Hne. rewrite Hne.
    exists (split "," text). split; [reflexivity |].
    split; [apply split_nonempty |].
    split; [apply (join_split ","%char) | apply split_parts].
Qed.

Lemma get_filter_ids_round_trip_example :
  _get_filter_ids (bare_request "GET" "/blocks" "") = JNone
  /\ exists parts,
       _get_filter_ids (get_status_request "aaa,bbb") = JList (map JStr parts)
       /\ parts <> []
       /\ join "," parts = "aaa,bbb"
       /\ Forall (fun part => mentions "," part = false) parts.
Proof.
  split.
  - apply (get_filter_ids_round_trip (bare_request "GET" "/blocks" "")).
    reflexivity.
  - destruct (get_filter_ids_round_trip (get_status_request "aaa,bbb"))
      as (_ & _ & Hlist).
    apply (Hlist "aaa,bbb"); [reflexivity | discriminate].
Defined.

Lemma other_params_without_head (q : list (string * string)) :
  other_params (without_head q) = other_params q.
Proof.
  unfold without_head. induction q as [| [k v] q IH]; [reflexivity |].
  cbn [filter fst other_params].
  destruct (k =? "head")%string eqn:E; cbn [negb]; [exact IH |].
  cbn [other_params]. now rewrite E, IH.
Qed.

(** X16. The link of the metadata is stable: a request for the same
    scheme, host and path whose query is the [head] of that link followed
    by the other parameters of the first request, answered with the same
    head, gets the same head and the same link. *)
Theorem get_metadata_link_stable `{Environment}
    (request followed : Request) (response : dict) (head_id : string) :
  dict_get "head_id" response = Some (JStr head_id) ->
  head_id <> "" ->
  scheme followed = scheme request ->
  host followed = host request ->
  path followed = path request ->
  query followed = ("head", head_id) :: without_head (query request) ->
  _get_metadata followed response = _get_metadata request response.
Proof.
  intros Hhead Hne Hs Hh Hp Hq.
  assert (T : truthy (JStr head_id) = true)
    by (simpl; now apply String.eqb_neq in Hne as ->).
  rewrite (get_metadata_link followed response _ Hhead T).
  rewrite (get_metadata_link request response _ Hhead T).
  rewrite Hs, Hh, Hp, Hq. cbn [other_params].
  simpl (("head" =? "head")%string). cbv iota.
  now rewrite other_params_without_head.
Qed.

Lemma get_metadata_link_stable_example :
  @_get_metadata demo_environment
    (state_request [("head", "abc"); ("address", "000000")]
       "http://localhost:8080/state?head=abc&address=000000")
    [("head_id", JStr "abc")]
  = @_get_metadata demo_environment
      (state_request [("address", "000000"); ("head", "old")]
         "http://localhost:8080/state?address=000000&head=old")
      [("head_id", JStr "abc")].
Proof.
  apply (@get_metadata_link_stable demo_environment
           (state_request [("address", "000000"); ("head", "old")]
              "http://localhost:8080/state?address=000000&head=old")
           (state_request [("head", "abc"); ("address", "000000")]
              "http://localhost:8080/state?head=abc&address=000000")
           [("head_id", JStr "abc")] "abc");
    try reflexivity.
  discriminate.
Defined.

(** ** One message for one request *)

Lemma trace_bind {A B} (c : M A) (k : A -> M B) :
  trace (bind c k)
  = trace c ++ match value c with
               | Ok a => trace (k a)
               | Raise _ => []
               end.
Proof.
  destruct c as [[a | e] t]; simpl.
  - now destruct (k a).
  - now rewrite app_nil_r.
Qed.

Lemma sends_app (t t' : list event) : sends (t ++ t') = (sends t + sends t')%nat.
Proof.
  unfold sends. now rewrite filter_app, length_app.
Qed.

Lemma for_each_check_sends (status : Z) (l : list ErrorTrap) :
  sends (trace (for_each (fun trap => check trap status) l)) = 0%nat.
Proof.
  induction l as [| t l IH]; [reflexivity |].
  cbn [for_each]. rewrite trace_bind, sends_app.
  unfold check at 1 2. rewrite bind_emit. cbn [trace value fst snd].
  destruct (status =? trigger t); cbn [value fst]; [reflexivity |].
  simpl. exact IH.
Qed.

Lemma try_response_parse_sends {T} (proto : ReplyProto T) response traps :
  sends (trace (_try_response_parse proto response traps)) = 0%nat.
Proof.
  destruct (ParseFromString proto response) as [parsed |] eqn:P.
  - rewrite (try_response_parse_unfold _ _ _ _ P), trace_bind, sends_app.
    rewrite for_each_check_sends.
    destruct (value _); reflexivity.
  - unfold _try_response_parse. rewrite P. reflexivity.
Qed.

Lemma query_validator_sends_once {Q T} `{ValidatorQuery Q} self req_type
    (resp_proto : ReplyProto T) (content : Q + bytes) traps :
  sends (trace (_query_validator self req_type resp_proto content traps)) = 1%nat.
Proof.
  unfold _query_validator.
  destruct (send (_stream self) req_type (wire content) (_timeout self))
    as [| [c |]] eqn:F.
  - rewrite (try_validator_request_lost self req_type content);
      [reflexivity | intros c; congruence].
  - rewrite (try_validator_request_answered self req_type content c F), bind_pair.
    cbn [trace snd]. change (Sent req_type (wire content) :: ?t)
      with ([Sent req_type (wire content)] ++ t).
    rewrite sends_app, try_response_parse_sends. reflexivity.
  - rewrite (try_validator_request_lost self req_type content);
      [reflexivity | intros c; congruence].
Qed.

Lemma submit_envelope_silent `{Environment} request (batch_list : list Batch)
    (response : dict) :
  trace
    (statuses <- getitem "batch_statuses" (JDict response) ;;
     let data := py_or statuses JNone in
     let link :=
       scheme request +++ "://" +++ host request +++ "/batch_status?id="
         +++ join "," (map header_signature batch_list) in
     match data with
     | JNone => ret (Response (_wrap_response data (Some [("link", JStr link)]) 202))
     | _ =>
         entries <- items data ;;
         if existsb (fun kv => negb (is_text "COMMITTED" (snd kv))) entries
         then ret (Response (_wrap_response data (Some [("link", JStr link)]) 200))
         else
           let link := replace "batch_status" "batches" link in
           ret (Response (_wrap_response JNone (Some [("link", JStr link)]) 201))
     end) = [].
Proof.
  cbn [getitem]. destruct (dict_get "batch_statuses" response) as [statuses |];
    [| reflexivity].
  cbn [lift]. rewrite bind_ret. cbv zeta. unfold py_or.
  destruct (truthy statuses); [| reflexivity].
  destruct statuses as [| | | | | d]; try reflexivity.
  cbn [items]. rewrite bind_ret. now destruct (existsb _ d).
Qed.

Ltac quiet := cbn [bind raise ret trace value fst snd app]; unfold sends; simpl; lia.

(** X17. No request makes a handler send a second message: the trace of
    [submit_batches], and that of [list_statuses], has at most one message
    to the validator, whatever the request and whatever the reply. *)
Theorem handlers_send_at_most_once `{Environment}
    (self : RouteHandler) (request : Request) :
  (sends (trace (submit_batches self request)) <= 1)%nat
  /\ (sends (trace (list_statuses self request)) <= 1)%nat.
Proof.
  split.
  - unfold submit_batches.
    destruct (header_get "Content-Type" (headers request)) as [v |]; cbn [lift];
      [rewrite bind_ret | quiet].
    destruct (negb _); [quiet |].
    destruct (body request); [quiet |].
    destruct (BatchList_ParseFromString _) as [batch_list |]; [| quiet].
    cbv zeta. rewrite trace_bind, set_wait_silent. cbn [app].
    destruct (value (_set_wait _ _ _)) as [q |]; [| quiet].
    rewrite trace_bind, sends_app, query_validator_sends_once.
    destruct (value (_query_validator _ _ _ _ _)) as [response |]; [| quiet].
    pose proof (submit_envelope_silent request batch_list response) as S.
    cbv zeta in S. rewrite S. quiet.
  - unfold list_statuses.
    rewrite trace_bind, parse_batch_ids_silent. cbn [app].
    destruct (value (parse_batch_ids request)) as [[e | ids] |];
      [quiet | | quiet].
    rewrite trace_bind.
    assert (N : trace (new_ClientBatchStatusRequest ids) = []).
    { unfold new_ClientBatchStatusRequest.
      destruct ids; try reflexivity; cbn [iterate]; rewrite bind_ret, mapM_as_text;
        destruct (texts_of _); reflexivity. }
    rewrite N. cbn [app].
    destruct (value (new_ClientBatchStatusRequest ids)) as [q0 |]; [| quiet].
    rewrite trace_bind, set_wait_silent. cbn [app].
    destruct (value (_set_wait _ _ _)) as [q |]; [| quiet].
    rewrite trace_bind, sends_app, query_validator_sends_once.
    destruct (value (_query_validator _ _ _ _ _)) as [response |]; quiet.
Qed.
